(** * Binary and counting semaphores (semaphore.h / semaphore.c)

    A shallow embedding of the semaphore library: the process-wide table of
    32 binary semaphores kept in one [uint32_t], and the heap allocated
    counting semaphore [struct counting_semaphore] with its two [uint16_t]
    counters.

    Conventions of the embedding:
    - a C unsigned integer of width [w] is a [Z] in [[0, 2^w)]; every
      operation that can leave the range has its reduction [mod 2^w]
      written out where the C code converts;
    - the global [binary_semaphores] and the structure behind a handle are
      passed explicitly: a function takes the value before the call and
      returns the value after it;
    - a busy-wait loop [while (c);] is run on fuel: with fuel [n] the
      condition is tested at most [n] times, and [None] means that the loop
      has not been left yet. Called from a single thread nothing changes
      the tested value between two tests;
    - for concurrent callers the statements of [counting_semaphore_take]
      are the atomic steps of an interleaving semantics;
    - the demonstration programs main_binary_sem.c, main_counting_sem.c
      and main_counting_sem.cpp are covered by the loop body of their
      thread function, run by one thread on its own; the terminal is the
      text written so far. *)

From Stdlib Require Import ZArith Lia Bool Ascii.
From stdpp Require Import base option list gmap strings pretty.

Local Open Scope Z_scope.

(** ** Fixed-width unsigned integers *)

Definition uint8_max : Z := 2 ^ 8 - 1.
Definition uint16_max : Z := 2 ^ 16 - 1.

(** Conversion to [uintN_t]: reduction modulo [2^N]. *)
Definition to_uint8 (x : Z) : Z := x mod 2 ^ 8.
Definition to_uint16 (x : Z) : Z := x mod 2 ^ 16.
Definition to_uint32 (x : Z) : Z := x mod 2 ^ 32.
Definition to_uint64 (x : Z) : Z := x mod 2 ^ 64.

Definition is_uint8 (x : Z) : Prop := 0 <= x <= uint8_max.
Definition is_uint16 (x : Z) : Prop := 0 <= x <= uint16_max.
Definition is_uint32 (x : Z) : Prop := 0 <= x < 2 ^ 32.

(** ** Binary semaphores *)

(** [#define BINARY_SEMAPHORE_LIMIT  (uint8_t)(32)] and its companions. *)
Definition BINARY_SEMAPHORE_LIMIT : Z := to_uint8 32.
Definition BINARY_SEMAPHORE_ID_MIN : Z := to_uint8 0.
Definition BINARY_SEMAPHORE_ID_MAX : Z := to_uint8 (BINARY_SEMAPHORE_LIMIT - 1).

(** [static uint32_t binary_semaphores = 0;] *)
Definition binary_semaphores_init : Z := 0.

(** [(1ULL << sem_id)], a 64-bit unsigned value. *)
Definition sem_mask (sem_id : Z) : Z := to_uint64 (Z.shiftl 1 sem_id).

(** [binary_semaphores & (1ULL << sem_id)], the loop condition of
    [binary_semaphore_take]: non-zero means reserved. *)
Definition binary_semaphore_reserved (sem_id binary_semaphores : Z) : bool :=
  negb (Z.land binary_semaphores (sem_mask sem_id) =? 0).

(** [binary_semaphores |= (1ULL << sem_id);] computed on 64 bits and stored
    back into the 32-bit global. *)
Definition binary_semaphore_set (sem_id binary_semaphores : Z) : Z :=
  to_uint32 (Z.lor binary_semaphores (sem_mask sem_id)).

(** [binary_semaphores &= ~(1ULL << sem_id);] with [~] the 64-bit
    complement. *)
Definition binary_semaphore_clear (sem_id binary_semaphores : Z) : Z :=
  to_uint32 (Z.land binary_semaphores (to_uint64 (Z.lnot (sem_mask sem_id)))).

(** [while (binary_semaphores & (1ULL << sem_id));] The result tells
    whether the loop was left within the given number of tests. *)
Fixpoint binary_semaphore_wait (fuel : nat) (sem_id binary_semaphores : Z) : bool :=
  match fuel with
  | O => false
  | S fuel' =>
      if binary_semaphore_reserved sem_id binary_semaphores
      then binary_semaphore_wait fuel' sem_id binary_semaphores
      else true
  end.

(** [bool binary_semaphore_take(const uint8_t sem_id)]: the returned pair
    is the boolean result and the value of [binary_semaphores] on return;
    [None] when the caller is still spinning. *)
Definition binary_semaphore_take (fuel : nat) (sem_id binary_semaphores : Z)
  : option (bool * Z) :=
  if sem_id >? BINARY_SEMAPHORE_ID_MAX then Some (false, binary_semaphores)
  else if binary_semaphore_wait fuel sem_id binary_semaphores
  then Some (true, binary_semaphore_set sem_id binary_semaphores)
  else None.

(** [bool binary_semaphore_release(const uint8_t sem_id)]. *)
Definition binary_semaphore_release (sem_id binary_semaphores : Z) : bool * Z :=
  if sem_id >? BINARY_SEMAPHORE_ID_MAX then (false, binary_semaphores)
  else (true, binary_semaphore_clear sem_id binary_semaphores).

(** ** Counting semaphores in C *)

(** [struct counting_semaphore], both fields [uint16_t]. *)
Record counting_semaphore : Type := {
  num_reserved_resources : Z;
  num_total_resources : Z
}.

(** The two assignments of [counting_semaphore_new] that set the starting
    values of a freshly allocated structure. *)
Definition counting_semaphore_init (num_resources : Z) : counting_semaphore :=
  {| num_reserved_resources := 0; num_total_resources := num_resources |}.

(** The heap of counting semaphores: a handle is a non-null address, the
    null pointer is [None]. *)
Definition handle : Type := option positive.

(** [counting_semaphore_new(const uint16_t num_resources)], returning a
    pointer to the new structure.
    [malloc] belongs to the C library: [allocated] is what the call
    returns, [None] when the allocation fails. It is only consulted when
    [num_resources] is not zero. *)
Definition counting_semaphore_new (allocated : handle) (num_resources : Z)
    (mem : gmap positive counting_semaphore)
  : handle * gmap positive counting_semaphore :=
  if num_resources =? 0 then (None, mem)
  else match allocated with
       | None => (None, mem)
       | Some self => (Some self, <[self := counting_semaphore_init num_resources]> mem)
       end.

(** [void counting_semaphore_delete(self)], [self] the address of the
    caller's pointer:
    frees the structure and returns the new value of the caller's pointer,
    which is null. *)
Definition counting_semaphore_delete (self : handle)
    (mem : gmap positive counting_semaphore)
  : handle * gmap positive counting_semaphore :=
  match self with
  | None => (None, mem)
  | Some p => (None, delete p mem)
  end.

(** [uint16_t counting_semaphore_num_reserved(self)]. *)
Definition counting_semaphore_num_reserved (self : counting_semaphore) : Z :=
  num_reserved_resources self.

(** [uint16_t counting_semaphore_num_available(self)]:
    the difference is computed on [int] and converted to [uint16_t]. *)
Definition counting_semaphore_num_available (self : counting_semaphore) : Z :=
  to_uint16 (num_total_resources self - num_reserved_resources self).

(** [self->num_reserved_resources >= self->num_total_resources], the loop
    condition of [counting_semaphore_take]. *)
Definition counting_semaphore_full (self : counting_semaphore) : bool :=
  num_reserved_resources self >=? num_total_resources self.

(** [self->num_reserved_resources++;] *)
Definition counting_semaphore_reserve (self : counting_semaphore) : counting_semaphore :=
  {| num_reserved_resources := to_uint16 (num_reserved_resources self + 1);
     num_total_resources := num_total_resources self |}.

(** [while (self->num_reserved_resources >= self->num_total_resources);] *)
Fixpoint counting_semaphore_wait (fuel : nat) (self : counting_semaphore) : bool :=
  match fuel with
  | O => false
  | S fuel' =>
      if counting_semaphore_full self then counting_semaphore_wait fuel' self
      else true
  end.

(** [void counting_semaphore_take(self)]: the
    structure on return, [None] while the caller is still spinning. *)
Definition counting_semaphore_take (fuel : nat) (self : counting_semaphore)
  : option counting_semaphore :=
  if counting_semaphore_wait fuel self then Some (counting_semaphore_reserve self)
  else None.

(** [void counting_semaphore_release(self)]. *)
Definition counting_semaphore_release (self : counting_semaphore) : counting_semaphore :=
  if num_reserved_resources self >? 0
  then {| num_reserved_resources := to_uint16 (num_reserved_resources self - 1);
          num_total_resources := num_total_resources self |}
  else self.

(** ** Counting semaphores in C++ *)

(** [template <uint16_t num_resources> class counting_semaphore]: the
    capacity is the template argument, the object holds the counter
    [num_reserved_resources_] alone, default-initialised to zero. The
    [static_assert] rejects [num_resources = 0] at compile time. *)
Module Cpp.

Definition counting_semaphore (num_resources : Z) : Z := 0.

Definition num_reserved_resources (num_resources num_reserved_resources_ : Z) : Z :=
  num_reserved_resources_.

Definition num_available_resources (num_resources num_reserved_resources_ : Z) : Z :=
  to_uint16 (num_resources - num_reserved_resources_).

Fixpoint wait (fuel : nat) (num_resources num_reserved_resources_ : Z) : bool :=
  match fuel with
  | O => false
  | S fuel' =>
      if num_reserved_resources_ >=? num_resources
      then wait fuel' num_resources num_reserved_resources_
      else true
  end.

Definition take (fuel : nat) (num_resources num_reserved_resources_ : Z) : option Z :=
  if wait fuel num_resources num_reserved_resources_
  then Some (to_uint16 (num_reserved_resources_ + 1))
  else None.

Definition release (num_resources num_reserved_resources_ : Z) : Z :=
  if num_reserved_resources_ >? 0 then to_uint16 (num_reserved_resources_ - 1)
  else num_reserved_resources_.

End Cpp.

(** ** Sequences of operations on one handle *)

(** The states a semaphore created with [capacity] resources goes through
    when [counting_semaphore_take] and [counting_semaphore_release] are
    called on it one after the other, every call returning before the next
    one starts. A take that never returns leaves the structure as it
    is. *)
Inductive reachable (capacity : Z) : counting_semaphore -> Prop :=
  | reachable_new :
      reachable capacity (counting_semaphore_init capacity)
  | reachable_take fuel self self' :
      reachable capacity self ->
      counting_semaphore_take fuel self = Some self' ->
      reachable capacity self'
  | reachable_release self :
      reachable capacity self ->
      reachable capacity (counting_semaphore_release self).

(** ** One slot of the table against a semaphore of capacity one *)

(** Slot [sem_id] of the table and a counting semaphore are in the same
    state: the semaphore has one resource and its counter is the bit. *)
Definition slot_sim (sem_id binary_semaphores : Z) (self : counting_semaphore) : Prop :=
  num_total_resources self = 1 /\
  num_reserved_resources self = Z.b2z (Z.testbit binary_semaphores sem_id).

(** ** Concurrent callers of [counting_semaphore_take] *)

(** Where a thread is in the sequence [take; release]. The loop test and
    the increment of [counting_semaphore_take] are two statements, and
    another thread can run between them. *)
Inductive thread_pc : Type :=
  | AtWait      (* in take, before a test of the loop condition *)
  | AtReserve   (* in take, loop left, before the increment *)
  | Holding     (* take has returned, release not yet called *)
  | Released.   (* release has returned *)

#[global] Instance thread_pc_eq_dec : EqDecision thread_pc.
Proof. solve_decision. Defined.

(** One semaphore shared by the threads, and the position of each. *)
Record system : Type := {
  shared : counting_semaphore;
  threads : list thread_pc
}.

(** Thread [tid] executes its next statement. *)
Definition thread_step (tid : nat) (sys : system) : system :=
  match threads sys !! tid with
  | Some AtWait =>
      if counting_semaphore_full (shared sys) then sys
      else {| shared := shared sys; threads := <[tid := AtReserve]> (threads sys) |}
  | Some AtReserve =>
      {| shared := counting_semaphore_reserve (shared sys);
         threads := <[tid := Holding]> (threads sys) |}
  | Some Holding =>
      {| shared := counting_semaphore_release (shared sys);
         threads := <[tid := Released]> (threads sys) |}
  | Some Released | None => sys
  end.

(** The threads run in the order given by the schedule. *)
Definition run_schedule (schedule : list nat) (sys : system) : system :=
  foldl (fun sys tid => thread_step tid sys) sys schedule.

(** [n] threads about to call take on a new semaphore. *)
Definition system_init (num_resources : Z) (n : nat) : system :=
  {| shared := counting_semaphore_init num_resources;
     threads := replicate n AtWait |}.

(** The number of threads that have completed take and not yet released. *)
Definition holders (sys : system) : nat :=
  length (filter (fun pc => pc = Holding) (threads sys)).

(** ** Sequences of calls *)

(** A call on one counting semaphore. *)
Inductive sem_op : Type :=
  | OpTake
  | OpRelease.

(** The calls are made one after the other by a single thread; the result
    is [None] when one of the takes does not return within [fuel] tests. *)
Fixpoint run_ops (fuel : nat) (ops : list sem_op) (self : counting_semaphore)
  : option counting_semaphore :=
  match ops with
  | [] => Some self
  | OpTake :: ops' =>
      match counting_semaphore_take fuel self with
      | Some self' => run_ops fuel ops' self'
      | None => None
      end
  | OpRelease :: ops' => run_ops fuel ops' (counting_semaphore_release self)
  end.

(** The same calls on an object of the C++ class. *)
Fixpoint run_ops_cpp (fuel : nat) (num_resources : Z) (ops : list sem_op)
    (num_reserved_resources_ : Z) : option Z :=
  match ops with
  | [] => Some num_reserved_resources_
  | OpTake :: ops' =>
      match Cpp.take fuel num_resources num_reserved_resources_ with
      | Some reserved' => run_ops_cpp fuel num_resources ops' reserved'
      | None => None
      end
  | OpRelease :: ops' =>
      run_ops_cpp fuel num_resources ops' (Cpp.release num_resources num_reserved_resources_)
  end.

(** A call on the table of binary semaphores. *)
Inductive table_op : Type :=
  | TableTake (sem_id : Z)
  | TableRelease (sem_id : Z).

Definition table_op_id (op : table_op) : Z :=
  match op with
  | TableTake sem_id | TableRelease sem_id => sem_id
  end.

(** The calls are made one after the other by a single thread, the boolean
    results being dropped. *)
Fixpoint run_table_ops (fuel : nat) (ops : list table_op) (binary_semaphores : Z)
  : option Z :=
  match ops with
  | [] => Some binary_semaphores
  | TableTake sem_id :: ops' =>
      match binary_semaphore_take fuel sem_id binary_semaphores with
      | Some (_, binary_semaphores') => run_table_ops fuel ops' binary_semaphores'
      | None => None
      end
  | TableRelease sem_id :: ops' =>
      run_table_ops fuel ops' (snd (binary_semaphore_release sem_id binary_semaphores))
  end.

(** Whether slot [k] is reserved after the calls, told from the calls
    alone: the last call that names [k] decides, and [held] is kept when
    none does. *)
Fixpoint held_after (ops : list table_op) (k : Z) (held : bool) : bool :=
  match ops with
  | [] => held
  | TableTake sem_id :: ops' => held_after ops' k (if sem_id =? k then true else held)
  | TableRelease sem_id :: ops' => held_after ops' k (if sem_id =? k then false else held)
  end.

(** ** The demonstration threads (main_binary_sem.c, main_counting_sem.c,
       main_counting_sem.cpp) *)

(** [#define BINARY_SEM_ID_CONSOLE (uint8_t)(0)] and
    [#define BINARY_SEM_ID_SHARED_MEM (uint8_t)(1)]. *)
Definition BINARY_SEM_ID_CONSOLE : Z := to_uint8 0.
Definition BINARY_SEM_ID_SHARED_MEM : Z := to_uint8 1.

(** [delay_ms]: the argument [delay_time_ms * 1000] handed to [usleep],
    the product being computed on [int]. *)
Definition delay_ms (delay_time_ms : Z) : Z := delay_time_ms * 1000.

(** [self->print_interval_ms > 10 ? self->print_interval_ms - 10 : 10],
    stored in a [uint16_t]. *)
Definition adjusted_print_interval_ms (print_interval_ms : Z) : Z :=
  to_uint16 (if print_interval_ms >? 10 then print_interval_ms - 10 else 10).

Definition newline : string := String "010"%char EmptyString.

Definition rule_line : string :=
  "--------------------------------------------------------------------------------".

(** The four [printf] calls of one iteration; [%hu] prints the decimal
    digits of an unsigned 16-bit value. *)
Definition print_block (id num_prints_copy : Z) : string :=
  (rule_line +:+ newline) +:+
  ("Running thread with ID " +:+ pretty id +:+ "!" +:+ newline) +:+
  ("Number of performed prints: " +:+ pretty num_prints_copy +:+ newline) +:+
  (rule_line +:+ newline +:+ newline).

(** What a thread shares with the others apart from the semaphores, and
    what it has asked [usleep] for: the counter [num_prints] (a
    [uint16_t]), the text written to the terminal, and the microseconds
    slept. *)
Record world : Type := {
  num_prints : Z;
  terminal : string;
  slept_us : Z
}.

(** The statements of an iteration between the two semaphores:
    [num_prints_copy = ++num_prints], then the prints and [delay_ms(10)]
    under the console semaphore, then [delay_ms(adjusted)]. *)
Definition iteration_effect (id print_interval_ms : Z) (w : world) : world :=
  let num_prints_copy := to_uint16 (num_prints w + 1) in
  {| num_prints := num_prints_copy;
     terminal := terminal w +:+ print_block id num_prints_copy;
     slept_us := slept_us w + delay_ms 10 +
                 delay_ms (adjusted_print_interval_ms print_interval_ms) |}.

(** State of the program of main_counting_sem.c: the structures behind the
    two pointers [sem_console] and [sem_shared_mem], and the rest. *)
Record counting_demo : Type := {
  sem_console : counting_semaphore;
  sem_shared_mem : counting_semaphore;
  counting_world : world
}.

(** One iteration of the loop of [run_thread] in main_counting_sem.c, run
    by a thread on its own. *)
Definition counting_run_thread_iteration (fuel : nat) (id print_interval_ms : Z)
    (st : counting_demo) : option counting_demo :=
  match counting_semaphore_take fuel (sem_shared_mem st) with
  | None => None
  | Some shared_taken =>
      let shared_released := counting_semaphore_release shared_taken in
      match counting_semaphore_take fuel (sem_console st) with
      | None => None
      | Some console_taken =>
          Some {| sem_console := counting_semaphore_release console_taken;
                  sem_shared_mem := shared_released;
                  counting_world :=
                    iteration_effect id print_interval_ms (counting_world st) |}
      end
  end.

(** The first [iterations] rounds of the [while (1)] loop. *)
Fixpoint counting_run_thread (fuel : nat) (iterations : nat) (id print_interval_ms : Z)
    (st : counting_demo) : option counting_demo :=
  match iterations with
  | O => Some st
  | S iterations' =>
      match counting_run_thread_iteration fuel id print_interval_ms st with
      | Some st' => counting_run_thread fuel iterations' id print_interval_ms st'
      | None => None
      end
  end.

(** State of the program of main_binary_sem.c. *)
Record binary_demo : Type := {
  binary_semaphores : Z;
  binary_world : world
}.

(** One iteration of the loop of [run_thread] in main_binary_sem.c, run by
    a thread on its own. The results of take and release are not looked
    at. *)
Definition binary_run_thread_iteration (fuel : nat) (id print_interval_ms : Z)
    (st : binary_demo) : option binary_demo :=
  match binary_semaphore_take fuel BINARY_SEM_ID_SHARED_MEM (binary_semaphores st) with
  | None => None
  | Some (_, shared_taken) =>
      let shared_released :=
        snd (binary_semaphore_release BINARY_SEM_ID_SHARED_MEM shared_taken) in
      match binary_semaphore_take fuel BINARY_SEM_ID_CONSOLE shared_released with
      | None => None
      | Some (_, console_taken) =>
          Some {| binary_semaphores :=
                    snd (binary_semaphore_release BINARY_SEM_ID_CONSOLE console_taken);
                  binary_world :=
                    iteration_effect id print_interval_ms (binary_world st) |}
      end
  end.

Fixpoint binary_run_thread (fuel : nat) (iterations : nat) (id print_interval_ms : Z)
    (st : binary_demo) : option binary_demo :=
  match iterations with
  | O => Some st
  | S iterations' =>
      match binary_run_thread_iteration fuel id print_interval_ms st with
      | Some st' => binary_run_thread fuel iterations' id print_interval_ms st'
      | None => None
      end
  end.

(** State of the program of main_counting_sem.cpp: the counters of the two
    [counting_semaphore<1>] objects, and the rest. [Delay_ms] sleeps for
    the same time as [delay_ms], given in milliseconds. *)
Record cpp_demo : Type := {
  cpp_sem_console : Z;
  cpp_sem_shared_mem : Z;
  cpp_world : world
}.

(** One iteration of the loop of [RunThread]. *)
Definition RunThread_iteration (fuel : nat) (thread_id print_interval_ms : Z)
    (st : cpp_demo) : option cpp_demo :=
  match Cpp.take fuel 1 (cpp_sem_shared_mem st) with
  | None => None
  | Some shared_taken =>
      let shared_released := Cpp.release 1 shared_taken in
      match Cpp.take fuel 1 (cpp_sem_console st) with
      | None => None
      | Some console_taken =>
          Some {| cpp_sem_console := Cpp.release 1 console_taken;
                  cpp_sem_shared_mem := shared_released;
                  cpp_world :=
                    iteration_effect thread_id print_interval_ms (cpp_world st) |}
      end
  end.

(** ** Range and bit-level facts *)

(** Closes the range side conditions [is_uintN x] on concrete or bounded
    values. *)
Ltac uint_range :=
  unfold is_uint8, is_uint16, is_uint32, uint8_max, uint16_max in *;
  simpl in *; lia.

Lemma BINARY_SEMAPHORE_ID_MAX_eq : BINARY_SEMAPHORE_ID_MAX = 31.
Proof. reflexivity. Qed.

Lemma to_uint16_small x : 0 <= x <= uint16_max -> to_uint16 x = x.
Proof. unfold uint16_max, to_uint16. intros H. apply Z.mod_small. lia. Qed.

Lemma to_uint32_range x : is_uint32 (to_uint32 x).
Proof. unfold is_uint32, to_uint32. apply Z.mod_pos_bound. lia. Qed.

Lemma to_uint32_bits x j :
  0 <= j -> Z.testbit (to_uint32 x) j = (j <? 32) && Z.testbit x j.
Proof.
  intros Hj. unfold to_uint32.
  destruct (Z.ltb_spec j 32).
  - now rewrite Z.mod_pow2_bits_low by lia.
  - now rewrite Z.mod_pow2_bits_high by lia.
Qed.

Lemma to_uint64_bits x j :
  0 <= j -> Z.testbit (to_uint64 x) j = (j <? 64) && Z.testbit x j.
Proof.
  intros Hj. unfold to_uint64.
  destruct (Z.ltb_spec j 64).
  - now rewrite Z.mod_pow2_bits_low by lia.
  - now rewrite Z.mod_pow2_bits_high by lia.
Qed.

Lemma uint32_bits_high x j : is_uint32 x -> 32 <= j -> Z.testbit x j = false.
Proof.
  intros Hx Hj. rewrite <- (Z.mod_small x (2 ^ 32)) by exact Hx.
  apply Z.mod_pow2_bits_high. lia.
Qed.

Lemma binary_semaphore_set_range sem_id bs : is_uint32 (binary_semaphore_set sem_id bs).
Proof. apply to_uint32_range. Qed.

Lemma binary_semaphore_clear_range sem_id bs : is_uint32 (binary_semaphore_clear sem_id bs).
Proof. apply to_uint32_range. Qed.

Create HintDb semaphore.
#[global] Hint Resolve to_uint32_range binary_semaphore_set_range
  binary_semaphore_clear_range : semaphore.

(** ** The wait loop of the binary semaphore *)

(** A single-threaded caller either leaves the wait loop at its first test
    or never. *)
Lemma binary_semaphore_wait_free fuel sem_id bs :
  binary_semaphore_reserved sem_id bs = false ->
  binary_semaphore_wait (S fuel) sem_id bs = true.
Proof. intros H. simpl. now rewrite H. Qed.

Lemma binary_semaphore_wait_reserved fuel sem_id bs :
  binary_semaphore_reserved sem_id bs = true ->
  binary_semaphore_wait fuel sem_id bs = false.
Proof. intros H. induction fuel as [| fuel IH]; simpl; [done |]. now rewrite H. Qed.

Lemma binary_semaphore_wait_true fuel sem_id bs :
  binary_semaphore_wait fuel sem_id bs = true ->
  binary_semaphore_reserved sem_id bs = false.
Proof.
  destruct (binary_semaphore_reserved sem_id bs) eqn:H; [| done].
  now rewrite binary_semaphore_wait_reserved.
Qed.

Lemma invalid_id_above sem_id :
  31 < sem_id -> (sem_id >? BINARY_SEMAPHORE_ID_MAX) = true.
Proof. intros H. rewrite BINARY_SEMAPHORE_ID_MAX_eq. lia. Qed.

(** ** The table at a valid identifier *)

Section valid_identifier.

Variable sem_id : Z.
Hypothesis sem_id_valid : 0 <= sem_id <= 31.

Lemma valid_id_not_above : (sem_id >? BINARY_SEMAPHORE_ID_MAX) = false.
Proof. rewrite BINARY_SEMAPHORE_ID_MAX_eq. lia. Qed.

(** The mask has bit [sem_id] set and no other. *)
Lemma sem_mask_bits j :
  0 <= j -> Z.testbit (sem_mask sem_id) j = (j =? sem_id).
Proof.
  intros Hj. unfold sem_mask, to_uint64.
  rewrite Z.shiftl_1_l, Z.mod_small.
  - rewrite Z.pow2_bits_eqb by lia. apply Z.eqb_sym.
  - split; [lia |]. apply Z.pow_lt_mono_r; lia.
Qed.

(** The loop condition of [binary_semaphore_take] reads exactly bit
    [sem_id]. *)
Lemma binary_semaphore_reserved_testbit bs :
  binary_semaphore_reserved sem_id bs = Z.testbit bs sem_id.
Proof.
  unfold binary_semaphore_reserved.
  destruct (Z.testbit bs sem_id) eqn:Hb.
  - destruct (Z.eqb_spec (Z.land bs (sem_mask sem_id)) 0) as [He | Hne]; [| done].
    assert (Z.testbit (Z.land bs (sem_mask sem_id)) sem_id = true) as Ht.
    { rewrite Z.land_spec, Hb, sem_mask_bits, Z.eqb_refl by lia. done. }
    rewrite He, Z.bits_0 in Ht. discriminate.
  - replace (Z.land bs (sem_mask sem_id)) with 0; [done |].
    symmetry. apply Z.bits_inj'. intros j Hj.
    rewrite Z.bits_0, Z.land_spec, sem_mask_bits by lia.
    destruct (Z.eqb_spec j sem_id) as [-> | Hne].
    + now rewrite Hb.
    + apply andb_false_r.
Qed.

Lemma binary_semaphore_set_bits bs j :
  is_uint32 bs -> 0 <= j ->
  Z.testbit (binary_semaphore_set sem_id bs) j =
    if j =? sem_id then true else Z.testbit bs j.
Proof.
  intros Hbs Hj. unfold binary_semaphore_set.
  rewrite to_uint32_bits, Z.lor_spec, sem_mask_bits by lia.
  destruct (Z.eqb_spec j sem_id) as [-> | Hne].
  - rewrite orb_true_r, andb_true_r. apply Z.ltb_lt. lia.
  - rewrite orb_false_r. destruct (Z.ltb_spec j 32); [done |].
    symmetry. now apply uint32_bits_high.
Qed.

Lemma binary_semaphore_clear_bits bs j :
  is_uint32 bs -> 0 <= j ->
  Z.testbit (binary_semaphore_clear sem_id bs) j =
    if j =? sem_id then false else Z.testbit bs j.
Proof.
  intros Hbs Hj. unfold binary_semaphore_clear.
  rewrite to_uint32_bits, Z.land_spec, to_uint64_bits, Z.lnot_spec,
    sem_mask_bits by lia.
  destruct (Z.eqb_spec j sem_id) as [-> | Hne]; simpl.
  - now rewrite !andb_false_r.
  - rewrite andb_true_r. destruct (Z.ltb_spec j 32) as [Hlt | Hge].
    + replace (j <? 64) with true by (symmetry; apply Z.ltb_lt; lia).
      now rewrite andb_true_r.
    + rewrite (uint32_bits_high bs j) by done. done.
Qed.

Lemma binary_semaphore_set_bit bs :
  is_uint32 bs -> Z.testbit (binary_semaphore_set sem_id bs) sem_id = true.
Proof. intros Hbs. rewrite binary_semaphore_set_bits, Z.eqb_refl by first [done | lia]. done. Qed.

Lemma binary_semaphore_clear_bit bs :
  is_uint32 bs -> Z.testbit (binary_semaphore_clear sem_id bs) sem_id = false.
Proof. intros Hbs. rewrite binary_semaphore_clear_bits, Z.eqb_refl by first [done | lia]. done. Qed.

(** What a call with a valid identifier returns, by the bit it finds. *)
Lemma binary_semaphore_take_free fuel bs :
  Z.testbit bs sem_id = false ->
  binary_semaphore_take (S fuel) sem_id bs =
    Some (true, binary_semaphore_set sem_id bs).
Proof.
  intros Hb. unfold binary_semaphore_take.
  rewrite valid_id_not_above, binary_semaphore_wait_free; [done |].
  now rewrite binary_semaphore_reserved_testbit.
Qed.

Lemma binary_semaphore_take_reserved fuel bs :
  Z.testbit bs sem_id = true ->
  binary_semaphore_take fuel sem_id bs = None.
Proof.
  intros Hb. unfold binary_semaphore_take.
  rewrite valid_id_not_above, binary_semaphore_wait_reserved; [done |].
  now rewrite binary_semaphore_reserved_testbit.
Qed.

Lemma binary_semaphore_take_no_fuel bs :
  binary_semaphore_take 0 sem_id bs = None.
Proof. unfold binary_semaphore_take. now rewrite valid_id_not_above. Qed.

Lemma binary_semaphore_take_inv fuel bs r bs' :
  binary_semaphore_take fuel sem_id bs = Some (r, bs') ->
  Z.testbit bs sem_id = false /\ r = true /\ bs' = binary_semaphore_set sem_id bs.
Proof.
  unfold binary_semaphore_take. rewrite valid_id_not_above.
  destruct (binary_semaphore_wait fuel sem_id bs) eqn:Hw; [| discriminate].
  intros [= <- <-]. apply binary_semaphore_wait_true in Hw.
  now rewrite binary_semaphore_reserved_testbit in Hw.
Qed.

Lemma binary_semaphore_release_valid bs :
  binary_semaphore_release sem_id bs = (true, binary_semaphore_clear sem_id bs).
Proof. unfold binary_semaphore_release. now rewrite valid_id_not_above. Qed.

End valid_identifier.

(** ** Facts about the counting semaphore *)

Lemma counting_semaphore_full_spec self :
  counting_semaphore_full self = true <->
  num_total_resources self <= num_reserved_resources self.
Proof. unfold counting_semaphore_full. lia. Qed.

Lemma counting_semaphore_wait_free fuel self :
  counting_semaphore_full self = false ->
  counting_semaphore_wait (S fuel) self = true.
Proof. intros H. simpl. now rewrite H. Qed.

Lemma counting_semaphore_wait_full fuel self :
  counting_semaphore_full self = true ->
  counting_semaphore_wait fuel self = false.
Proof. intros H. induction fuel as [| fuel IH]; simpl; [done |]. now rewrite H. Qed.

Lemma counting_semaphore_take_free fuel self :
  num_reserved_resources self < num_total_resources self ->
  counting_semaphore_take (S fuel) self = Some (counting_semaphore_reserve self).
Proof.
  intros H. unfold counting_semaphore_take.
  rewrite counting_semaphore_wait_free; [done |].
  unfold counting_semaphore_full. lia.
Qed.

Lemma counting_semaphore_take_full fuel self :
  num_total_resources self <= num_reserved_resources self ->
  counting_semaphore_take fuel self = None.
Proof.
  intros H. unfold counting_semaphore_take.
  rewrite counting_semaphore_wait_full; [done |].
  now apply counting_semaphore_full_spec.
Qed.

Lemma counting_semaphore_take_inv fuel self self' :
  counting_semaphore_take fuel self = Some self' ->
  num_reserved_resources self < num_total_resources self /\
  self' = counting_semaphore_reserve self.
Proof.
  unfold counting_semaphore_take.
  destruct (counting_semaphore_wait fuel self) eqn:Hw; [| discriminate].
  intros [= <-]. split; [| done].
  destruct (Z.lt_ge_cases (num_reserved_resources self) (num_total_resources self))
    as [Hlt | Hge]; [done |].
  rewrite counting_semaphore_wait_full in Hw; [discriminate |].
  now apply counting_semaphore_full_spec.
Qed.

(** Below the capacity the increment does not wrap around. *)
Lemma counting_semaphore_reserve_reserved self :
  0 <= num_reserved_resources self < num_total_resources self ->
  num_total_resources self <= uint16_max ->
  num_reserved_resources (counting_semaphore_reserve self) =
    num_reserved_resources self + 1.
Proof. intros H Hc. simpl. apply to_uint16_small. lia. Qed.

Lemma counting_semaphore_release_total self :
  num_total_resources (counting_semaphore_release self) = num_total_resources self.
Proof.
  unfold counting_semaphore_release.
  now destruct (num_reserved_resources self >? 0).
Qed.

Lemma counting_semaphore_release_reserved self :
  is_uint16 (num_reserved_resources self) ->
  num_reserved_resources (counting_semaphore_release self) =
    Z.max (num_reserved_resources self - 1) 0.
Proof.
  unfold is_uint16. intros H. unfold counting_semaphore_release.
  destruct (Z.gtb_spec (num_reserved_resources self) 0) as [Hpos | Hzero]; simpl.
  - rewrite to_uint16_small by lia. lia.
  - lia.
Qed.

(** The invariant of a semaphore created with [capacity] resources. *)
Lemma reachable_invariant capacity self :
  0 < capacity <= uint16_max ->
  reachable capacity self ->
  num_total_resources self = capacity /\
  0 <= num_reserved_resources self <= capacity.
Proof.
  intros Hcap Hreach.
  induction Hreach as [| fuel self self' _ [Htot Hres] Htake | self _ [Htot Hres]].
  - simpl. lia.
  - apply counting_semaphore_take_inv in Htake as [Hlt ->].
    rewrite counting_semaphore_reserve_reserved by lia. simpl. lia.
  - rewrite counting_semaphore_release_total, counting_semaphore_release_reserved
      by (unfold is_uint16; lia).
    lia.
Qed.

(** The C++ class is the C structure with the capacity moved into the
    template argument. *)
Lemma cpp_wait_agrees fuel num_resources reserved :
  Cpp.wait fuel num_resources reserved =
  counting_semaphore_wait fuel
    {| num_reserved_resources := reserved; num_total_resources := num_resources |}.
Proof.
  induction fuel as [| fuel IH]; simpl; [done |].
  unfold counting_semaphore_full. simpl. now rewrite IH.
Qed.

Lemma cpp_take_agrees fuel num_resources reserved :
  Cpp.take fuel num_resources reserved =
  num_reserved_resources <$>
    counting_semaphore_take fuel
      {| num_reserved_resources := reserved; num_total_resources := num_resources |}.
Proof.
  unfold Cpp.take, counting_semaphore_take. rewrite cpp_wait_agrees.
  now destruct (counting_semaphore_wait _ _).
Qed.

Lemma cpp_release_agrees num_resources reserved :
  Cpp.release num_resources reserved =
  num_reserved_resources
    (counting_semaphore_release
      {| num_reserved_resources := reserved; num_total_resources := num_resources |}).
Proof.
  unfold Cpp.release, counting_semaphore_release. simpl.
  now destruct (reserved >? 0).
Qed.

Lemma cpp_num_available_agrees num_resources reserved :
  Cpp.num_available_resources num_resources reserved =
  counting_semaphore_num_available
    {| num_reserved_resources := reserved; num_total_resources := num_resources |}.
Proof. reflexivity. Qed.

(** ** The binary semaphore table: claims *)

(** C5. For a valid identifier (0 to 31) [binary_semaphore_take] returns
    only from a state in which bit [sem_id] is clear; it then returns
    [true] with bit [sem_id] set. From such a state it does return, at the
    first test of the loop; while the bit is set it keeps spinning. *)
Theorem binary_take_sets_bit (sem_id bs : Z) :
  0 <= sem_id <= 31 -> is_uint32 bs ->
  (forall fuel r bs',
      binary_semaphore_take fuel sem_id bs = Some (r, bs') ->
      Z.testbit bs sem_id = false /\ r = true /\ Z.testbit bs' sem_id = true) /\
  (Z.testbit bs sem_id = false ->
   forall fuel, exists bs',
      binary_semaphore_take (S fuel) sem_id bs = Some (true, bs') /\
      Z.testbit bs' sem_id = true) /\
  (Z.testbit bs sem_id = true ->
   forall fuel, binary_semaphore_take fuel sem_id bs = None).
Proof.
  intros Hid Hbs.
  pose proof (binary_semaphore_set_bit sem_id Hid bs Hbs) as Hset.
  split; [| split].
  - intros fuel r bs' Ht.
    apply binary_semaphore_take_inv in Ht as (Hb & -> & ->); done.
  - intros Hb fuel. exists (binary_semaphore_set sem_id bs).
    split; [now apply binary_semaphore_take_free | done].
  - intros Hb fuel. now apply binary_semaphore_take_reserved.
Qed.

Lemma binary_take_sets_bit_witness :
  binary_semaphore_take 1 3 5 = Some (true, 13) /\ Z.testbit 13 3 = true.
Proof.
  destruct (binary_take_sets_bit 3 5) as (_ & Hfree & _).
  - lia.
  - uint_range.
  - destruct (Hfree eq_refl O) as (bs' & Ht & Hb).
    vm_compute in Ht. injection Ht as <-. split; [reflexivity | exact Hb].
Defined.

(** C6. For an identifier above 31 (the parameter is a [uint8_t], so 32 to
    255) both [binary_semaphore_take] and [binary_semaphore_release]
    return [false] at once and leave [binary_semaphores] as it was. *)
Theorem binary_invalid_id_rejected (fuel : nat) (sem_id bs : Z) :
  is_uint8 sem_id -> ~ (0 <= sem_id <= 31) ->
  binary_semaphore_take fuel sem_id bs = Some (false, bs) /\
  binary_semaphore_release sem_id bs = (false, bs).
Proof.
  intros [Hlo Hhi] Hout.
  unfold binary_semaphore_take, binary_semaphore_release.
  rewrite invalid_id_above by lia. done.
Qed.

Lemma binary_invalid_id_rejected_witness :
  binary_semaphore_take 0 32 5 = Some (false, 5) /\
  binary_semaphore_release 255 5 = (false, 5).
Proof.
  split.
  - apply (binary_invalid_id_rejected 0 32 5); uint_range.
  - apply (binary_invalid_id_rejected 0 255 5); uint_range.
Defined.

(** C7. For a valid identifier [binary_semaphore_release] returns [true]
    and leaves bit [sem_id] clear whatever its value was. The call takes
    no caller identity and does not look at the bit: released on the
    initial table, where nothing was ever taken, it succeeds as well. *)
Theorem binary_release_clears_bit (sem_id bs : Z) :
  0 <= sem_id <= 31 -> is_uint32 bs ->
  (exists bs',
      binary_semaphore_release sem_id bs = (true, bs') /\
      Z.testbit bs' sem_id = false) /\
  binary_semaphore_release sem_id binary_semaphores_init =
    (true, binary_semaphores_init).
Proof.
  intros Hid Hbs. split.
  - exists (binary_semaphore_clear sem_id bs).
    split; [now apply binary_semaphore_release_valid |].
    now apply binary_semaphore_clear_bit.
  - rewrite binary_semaphore_release_valid by done. reflexivity.
Qed.

Lemma binary_release_clears_bit_witness :
  binary_semaphore_release 3 13 = (true, 5) /\ Z.testbit 5 3 = false.
Proof.
  destruct (binary_release_clears_bit 3 13) as ((bs' & Hr & Hb) & _).
  - lia.
  - uint_range.
  - vm_compute in Hr. injection Hr as <-. split; [reflexivity | exact Hb].
Defined.

(** C10. For a valid identifier a completed [binary_semaphore_take] and a
    [binary_semaphore_release] change no bit of [binary_semaphores] other
    than bit [sem_id], and the result is again a 32-bit value. *)
Theorem binary_ops_frame (sem_id bs j : Z) :
  0 <= sem_id <= 31 -> is_uint32 bs -> 0 <= j -> j <> sem_id ->
  (forall fuel r bs',
      binary_semaphore_take fuel sem_id bs = Some (r, bs') ->
      Z.testbit bs' j = Z.testbit bs j /\ is_uint32 bs') /\
  Z.testbit (snd (binary_semaphore_release sem_id bs)) j = Z.testbit bs j /\
  is_uint32 (snd (binary_semaphore_release sem_id bs)).
Proof.
  intros Hid Hbs Hj Hne.
  assert ((j =? sem_id) = false) as Hjb by lia.
  split; [| split].
  - intros fuel r bs' Ht.
    apply binary_semaphore_take_inv in Ht as (_ & _ & ->); [| done].
    split; [| auto with semaphore].
    now rewrite binary_semaphore_set_bits, Hjb.
  - rewrite binary_semaphore_release_valid by done. simpl.
    now rewrite binary_semaphore_clear_bits, Hjb.
  - rewrite binary_semaphore_release_valid by done. simpl.
    auto with semaphore.
Qed.

Lemma binary_ops_frame_witness :
  Z.testbit 13 2 = Z.testbit 5 2 /\
  Z.testbit (snd (binary_semaphore_release 3 13)) 2 = Z.testbit 13 2.
Proof.
  destruct (binary_ops_frame 3 5 2) as (Htake & _); [lia | uint_range | lia | lia |].
  destruct (binary_ops_frame 3 13 2) as (_ & Hrel & _); [lia | uint_range | lia | lia |].
  split; [| exact Hrel].
  apply (Htake 1%nat true 13). reflexivity.
Defined.

(** ** Facts about creation and deletion *)

(** A handle returned by [counting_semaphore_new] points to the initial
    state that [reachable] starts from, with a capacity that is not
    zero. *)
Lemma counting_semaphore_new_init allocated num_resources
    (mem : gmap positive counting_semaphore) self :
  fst (counting_semaphore_new allocated num_resources mem) = Some self ->
  num_resources <> 0 /\
  snd (counting_semaphore_new allocated num_resources mem) !! self =
    Some (counting_semaphore_init num_resources).
Proof.
  unfold counting_semaphore_new.
  destruct (Z.eqb_spec num_resources 0) as [-> | Hne]; [discriminate |].
  destruct allocated as [p |]; [| discriminate].
  simpl. intros [= <-]. split; [done |]. apply lookup_insert_eq.
Qed.

(** Creation leaves the semaphores that already exist alone, provided the
    allocator hands out an address that is not in use. *)
Lemma counting_semaphore_new_frame allocated num_resources
    (mem : gmap positive counting_semaphore) other :
  (forall self, allocated = Some self -> mem !! self = None) ->
  is_Some (mem !! other) ->
  snd (counting_semaphore_new allocated num_resources mem) !! other = mem !! other.
Proof.
  intros Hfresh [sem Hother]. unfold counting_semaphore_new.
  destruct (num_resources =? 0); [done |].
  destruct allocated as [p |]; [| done]. simpl.
  apply lookup_insert_ne. intros ->.
  rewrite (Hfresh other eq_refl) in Hother. discriminate.
Qed.

(** Deletion nulls the caller's pointer and removes the structure. *)
Lemma counting_semaphore_delete_spec (mem : gmap positive counting_semaphore) self :
  fst (counting_semaphore_delete (Some self) mem) = None /\
  snd (counting_semaphore_delete (Some self) mem) !! self = None.
Proof. simpl. split; [done |]. apply lookup_delete_eq. Qed.

(** ** The counting semaphore: claims *)

(** C2. Every state reached from a semaphore created with [capacity]
    resources (1 to 65535) by calls of take and release keeps the capacity
    and has [0 <= reserved <= capacity]. A take returns from such a state
    only when [reserved < capacity], and then with [reserved + 1]; when
    [reserved < capacity] it does return. A release yields
    [max (reserved - 1) 0]. *)
Theorem counting_reserved_within_capacity (capacity : Z) (self : counting_semaphore) :
  0 < capacity <= uint16_max ->
  reachable capacity self ->
  (num_total_resources self = capacity /\
   0 <= num_reserved_resources self <= capacity) /\
  (forall fuel self',
      counting_semaphore_take fuel self = Some self' ->
      num_reserved_resources self < capacity /\
      num_reserved_resources self' = num_reserved_resources self + 1 /\
      num_total_resources self' = capacity) /\
  (num_reserved_resources self < capacity ->
   forall fuel, exists self',
      counting_semaphore_take (S fuel) self = Some self' /\
      num_reserved_resources self' = num_reserved_resources self + 1) /\
  (capacity <= num_reserved_resources self ->
   forall fuel, counting_semaphore_take fuel self = None) /\
  num_reserved_resources (counting_semaphore_release self) =
    Z.max (num_reserved_resources self - 1) 0.
Proof.
  intros Hcap Hreach.
  destruct (reachable_invariant capacity self Hcap Hreach) as [Htot Hres].
  split; [done |]. split; [| split; [| split]].
  - intros fuel self' Htake.
    apply counting_semaphore_take_inv in Htake as [Hlt ->].
    rewrite counting_semaphore_reserve_reserved by lia. simpl. lia.
  - intros Hlt fuel. exists (counting_semaphore_reserve self). split.
    + apply counting_semaphore_take_free. lia.
    + apply counting_semaphore_reserve_reserved; lia.
  - intros Hge fuel. apply counting_semaphore_take_full. lia.
  - apply counting_semaphore_release_reserved. unfold is_uint16. lia.
Qed.

Lemma counting_reserved_within_capacity_witness :
  let self := {| num_reserved_resources := 2; num_total_resources := 2 |} in
  (num_total_resources self = 2 /\ 0 <= num_reserved_resources self <= 2) /\
  counting_semaphore_take 5 self = None.
Proof.
  intros self.
  assert (reachable 2 self) as Hreach.
  { apply (reachable_take 2 1 {| num_reserved_resources := 1; num_total_resources := 2 |});
      [| reflexivity].
    apply (reachable_take 2 1 (counting_semaphore_init 2)); [| reflexivity].
    apply reachable_new. }
  destruct (counting_reserved_within_capacity 2 self) as (Hinv & _ & _ & Hfull & _).
  - unfold uint16_max. lia.
  - exact Hreach.
  - split; [exact Hinv |]. apply Hfull. simpl. lia.
Defined.

(** C4. In every state reached from a semaphore created with [capacity]
    resources by calls of take and release, the two accessors add up to
    the capacity. *)
Theorem counting_reserved_plus_available (capacity : Z) (self : counting_semaphore) :
  0 < capacity <= uint16_max ->
  reachable capacity self ->
  counting_semaphore_num_reserved self + counting_semaphore_num_available self =
    capacity.
Proof.
  intros Hcap Hreach.
  destruct (reachable_invariant capacity self Hcap Hreach) as [Htot Hres].
  unfold counting_semaphore_num_reserved, counting_semaphore_num_available.
  rewrite to_uint16_small by lia. lia.
Qed.

Lemma counting_reserved_plus_available_witness :
  counting_semaphore_num_reserved
    (counting_semaphore_release (counting_semaphore_reserve (counting_semaphore_init 3))) +
  counting_semaphore_num_available
    (counting_semaphore_release (counting_semaphore_reserve (counting_semaphore_init 3))) = 3.
Proof.
  apply counting_reserved_plus_available.
  - unfold uint16_max. lia.
  - apply reachable_release.
    apply (reachable_take 3 1 (counting_semaphore_init 3)); [| reflexivity].
    apply reachable_new.
Defined.

(** C9. [counting_semaphore_release] takes one off the reserved count when
    it is positive and changes nothing when it is zero; the count is never
    negative afterwards, and any number of further releases of a semaphore
    with nothing reserved leaves it as it is. The capacity is not
    touched. *)
Theorem counting_release_clamped (self : counting_semaphore) :
  is_uint16 (num_reserved_resources self) ->
  (0 < num_reserved_resources self ->
   num_reserved_resources (counting_semaphore_release self) =
     num_reserved_resources self - 1) /\
  (num_reserved_resources self = 0 ->
   forall n : nat, Nat.iter n counting_semaphore_release self = self) /\
  0 <= num_reserved_resources (counting_semaphore_release self) /\
  num_total_resources (counting_semaphore_release self) = num_total_resources self.
Proof.
  intros Hres.
  pose proof (counting_semaphore_release_reserved self Hres) as Hrel.
  split; [| split; [| split]].
  - intros Hpos. lia.
  - intros Hzero n. induction n as [| n IH]; simpl; [done |].
    rewrite IH. unfold counting_semaphore_release. now rewrite Hzero.
  - lia.
  - apply counting_semaphore_release_total.
Qed.

Lemma counting_release_clamped_witness :
  Nat.iter 4 counting_semaphore_release (counting_semaphore_init 2) =
    counting_semaphore_init 2 /\
  num_reserved_resources
    (counting_semaphore_release
       {| num_reserved_resources := 2; num_total_resources := 2 |}) = 2 - 1.
Proof.
  split.
  - destruct (counting_release_clamped (counting_semaphore_init 2)) as (_ & Hzero & _).
    + uint_range.
    + apply Hzero. reflexivity.
  - destruct (counting_release_clamped
                {| num_reserved_resources := 2; num_total_resources := 2 |})
      as (Hpos & _).
    + uint_range.
    + apply Hpos. simpl. lia.
Defined.

(** C8. [counting_semaphore_new] returns the null pointer exactly when
    [num_resources] is zero or the allocation has failed, and the heap is
    then unchanged; otherwise it returns the allocated address, at which
    the heap holds a semaphore with nothing reserved and [num_resources]
    resources in total. *)
Theorem counting_new_result (allocated : handle) (num_resources : Z)
    (mem : gmap positive counting_semaphore) :
  (fst (counting_semaphore_new allocated num_resources mem) = None <->
   num_resources = 0 \/ allocated = None) /\
  (fst (counting_semaphore_new allocated num_resources mem) = None ->
   snd (counting_semaphore_new allocated num_resources mem) = mem) /\
  (forall self,
      fst (counting_semaphore_new allocated num_resources mem) = Some self ->
      allocated = Some self /\
      exists sem,
        snd (counting_semaphore_new allocated num_resources mem) !! self = Some sem /\
        num_reserved_resources sem = 0 /\
        num_total_resources sem = num_resources).
Proof.
  unfold counting_semaphore_new.
  destruct (Z.eqb_spec num_resources 0) as [-> | Hne]; simpl.
  - split; [| split]; [intuition | done | discriminate].
  - destruct allocated as [p |]; simpl.
    + split; [| split].
      * split; [discriminate | intros [H | H]; [lia | discriminate]].
      * discriminate.
      * intros self [= <-]. split; [done |].
        exists (counting_semaphore_init num_resources).
        now rewrite lookup_insert_eq.
    + split; [| split]; [intuition | done | discriminate].
Qed.

Lemma counting_new_result_witness :
  exists sem,
    snd (counting_semaphore_new (Some 7%positive) 3 ∅) !! 7%positive = Some sem /\
    num_reserved_resources sem = 0 /\
    num_total_resources sem = 3.
Proof.
  destruct (counting_new_result (Some 7%positive) 3 ∅) as (_ & _ & Hsome).
  destruct (Hsome 7%positive eq_refl) as (_ & Hsem).
  exact Hsem.
Defined.

(** C3. A counting semaphore with one resource and slot [sem_id] of the
    table, started together, stay in the same state whatever is called on
    both: a take returns on one exactly when it returns on the other, that
    is when the slot is free, and leaves both reserved; a release succeeds
    on the slot and leaves both free. *)
Theorem capacity_one_is_binary_slot (sem_id bs : Z) (self : counting_semaphore) :
  0 <= sem_id <= 31 -> is_uint32 bs -> slot_sim sem_id bs self ->
  slot_sim sem_id binary_semaphores_init (counting_semaphore_init 1) /\
  (forall fuel,
      is_Some (binary_semaphore_take fuel sem_id bs) <->
      is_Some (counting_semaphore_take fuel self)) /\
  (forall fuel,
      is_Some (counting_semaphore_take (S fuel) self) <->
      Z.testbit bs sem_id = false) /\
  (forall fuel r bs' self',
      binary_semaphore_take fuel sem_id bs = Some (r, bs') ->
      counting_semaphore_take fuel self = Some self' ->
      r = true /\ is_uint32 bs' /\ slot_sim sem_id bs' self' /\
      Z.testbit bs' sem_id = true /\ num_reserved_resources self' = 1) /\
  (forall r bs',
      binary_semaphore_release sem_id bs = (r, bs') ->
      r = true /\ is_uint32 bs' /\
      slot_sim sem_id bs' (counting_semaphore_release self) /\
      Z.testbit bs' sem_id = false /\
      num_reserved_resources (counting_semaphore_release self) = 0).
Proof.
  intros Hid Hbs [Htot Hres].
  pose proof (binary_semaphore_set_bit sem_id Hid bs Hbs) as Hset.
  pose proof (binary_semaphore_clear_bit sem_id Hid bs Hbs) as Hclear.
  split; [| split; [| split; [| split]]].
  - split; [reflexivity |]. unfold binary_semaphores_init.
    now rewrite Z.bits_0.
  - intros fuel. destruct (Z.testbit bs sem_id) eqn:Hb; simpl in Hres.
    + rewrite binary_semaphore_take_reserved, counting_semaphore_take_full
        by first [done | lia].
      done.
    + destruct fuel as [| fuel].
      { rewrite binary_semaphore_take_no_fuel by done.
        split; intros [? [=]]. }
      rewrite binary_semaphore_take_free, counting_semaphore_take_free
        by first [done | lia].
      split; intros _; eauto.
  - intros fuel. destruct (Z.testbit bs sem_id) eqn:Hb; simpl in Hres.
    + rewrite counting_semaphore_take_full by lia.
      split; [intros [? [=]] | discriminate].
    + rewrite counting_semaphore_take_free by lia. split; eauto.
  - intros fuel r bs' self' Hbin Hcnt.
    apply binary_semaphore_take_inv in Hbin as (Hb & -> & ->); [| done].
    apply counting_semaphore_take_inv in Hcnt as (Hlt & ->).
    rewrite Hb in Hres. simpl in Hres.
    assert (num_reserved_resources (counting_semaphore_reserve self) = 1) as Hone.
    { simpl. rewrite Hres. reflexivity. }
    split; [done |]. split; [auto with semaphore |].
    split; [| done]. split; [done |].
    rewrite Hset, Hone. reflexivity.
  - intros r bs'. rewrite binary_semaphore_release_valid by done.
    intros [= <- <-].
    assert (num_reserved_resources (counting_semaphore_release self) = 0) as Hzero.
    { rewrite counting_semaphore_release_reserved.
      - destruct (Z.testbit bs sem_id); simpl in Hres; lia.
      - unfold is_uint16, uint16_max. destruct (Z.testbit bs sem_id); simpl in Hres; lia. }
    split; [done |]. split; [auto with semaphore |].
    split; [| done]. split.
    + now rewrite counting_semaphore_release_total.
    + rewrite Hclear, Hzero. reflexivity.
Qed.

Lemma capacity_one_is_binary_slot_witness :
  slot_sim 3 (binary_semaphore_set 3 5)
    (counting_semaphore_reserve (counting_semaphore_init 1)) /\
  slot_sim 3 (binary_semaphore_clear 3 13)
    (counting_semaphore_release
       {| num_reserved_resources := 1; num_total_resources := 1 |}).
Proof.
  split.
  - destruct (capacity_one_is_binary_slot 3 5 (counting_semaphore_init 1))
      as (_ & _ & _ & Htake & _).
    + lia.
    + uint_range.
    + split; reflexivity.
    + destruct (Htake 1%nat true (binary_semaphore_set 3 5)
                  (counting_semaphore_reserve (counting_semaphore_init 1))
                  eq_refl eq_refl) as (_ & _ & Hsim & _).
      exact Hsim.
  - destruct (capacity_one_is_binary_slot 3 13
                {| num_reserved_resources := 1; num_total_resources := 1 |})
      as (_ & _ & _ & _ & Hrel).
    + lia.
    + uint_range.
    + split; reflexivity.
    + destruct (Hrel true (binary_semaphore_clear 3 13) eq_refl) as (_ & _ & Hsim & _).
      exact Hsim.
Defined.

(** ** The interleaving semantics on the scenario of one resource *)

(** Thread 0 runs its take to the end before thread 1 starts: thread 1
    finds the loop condition true and stays in the loop however often it
    is scheduled. *)
Example capacity_one_second_taker_spins :
  run_schedule [0; 0; 1; 1; 1]%nat (system_init 1 2) =
    {| shared := {| num_reserved_resources := 1; num_total_resources := 1 |};
       threads := [Holding; AtWait] |}.
Proof. reflexivity. Qed.

(** Thread 0 then releases, the take of thread 1 returns, and thread 1
    releases in turn: one holder at a time, nothing reserved in the
    end. *)
Example capacity_one_hand_over :
  run_schedule [0; 0; 1; 0; 1; 1]%nat (system_init 1 2) =
    {| shared := {| num_reserved_resources := 1; num_total_resources := 1 |};
       threads := [Released; Holding] |} /\
  run_schedule [0; 0; 1; 0; 1; 1; 1]%nat (system_init 1 2) =
    {| shared := {| num_reserved_resources := 0; num_total_resources := 1 |};
       threads := [Released; Released] |}.
Proof. split; reflexivity. Qed.

(** A thread that is scheduled without interruption from the loop test to
    the increment does what the sequential function does. *)
Lemma thread_step_take_uninterrupted tid sys :
  threads sys !! tid = Some AtWait ->
  counting_semaphore_full (shared sys) = false ->
  shared (run_schedule [tid; tid] sys) = counting_semaphore_reserve (shared sys) /\
  counting_semaphore_take 1 (shared sys) = Some (counting_semaphore_reserve (shared sys)) /\
  threads (run_schedule [tid; tid] sys) !! tid = Some Holding.
Proof.
  intros Hpc Hfree.
  assert (tid < length (threads sys))%nat as Hlen by (eapply lookup_lt_Some; eauto).
  assert (thread_step tid sys =
          {| shared := shared sys; threads := <[tid := AtReserve]> (threads sys) |})
    as Hfirst.
  { unfold thread_step. now rewrite Hpc, Hfree. }
  unfold run_schedule. simpl. rewrite Hfirst.
  unfold thread_step. simpl. rewrite list_lookup_insert_eq by done. simpl.
  split; [done |]. split.
  - unfold counting_semaphore_take. simpl. now rewrite Hfree.
  - apply list_lookup_insert_eq. now rewrite length_insert.
Qed.

(** ** Concurrent callers: claims *)

(** C1. Two threads call [counting_semaphore_take] on a semaphore with one
    resource. Both test the loop condition before either increments the
    counter: both calls return, so two threads hold the single resource,
    and the reserved count is 2 against a capacity of 1. *)
Theorem counting_take_race_two_holders :
  let sys := run_schedule [0; 1; 0; 1]%nat (system_init 1 2) in
  threads sys = [Holding; Holding] /\
  holders sys = 2%nat /\
  num_total_resources (shared sys) = 1 /\
  num_reserved_resources (shared sys) = 2 /\
  (Z.of_nat (holders sys) > num_total_resources (shared sys)).
Proof. vm_compute. repeat split. Qed.

(** * Further properties of the library and of its callers *)

(** ** The binary semaphore table *)

Lemma binary_semaphore_clear_set sem_id bs :
  0 <= sem_id <= 31 -> is_uint32 bs -> Z.testbit bs sem_id = false ->
  binary_semaphore_clear sem_id (binary_semaphore_set sem_id bs) = bs.
Proof.
  intros Hid Hbs Hb. apply Z.bits_inj'. intros j Hj.
  rewrite binary_semaphore_clear_bits, binary_semaphore_set_bits
    by auto with semaphore.
  destruct (Z.eqb_spec j sem_id) as [-> | Hne]; done.
Qed.

Lemma binary_semaphore_clear_free sem_id bs :
  0 <= sem_id <= 31 -> is_uint32 bs -> Z.testbit bs sem_id = false ->
  binary_semaphore_clear sem_id bs = bs.
Proof.
  intros Hid Hbs Hb. apply Z.bits_inj'. intros j Hj.
  rewrite binary_semaphore_clear_bits by done.
  destruct (Z.eqb_spec j sem_id) as [-> | Hne]; done.
Qed.

(** X1. A take that has returned, followed by a release of the same
    identifier, puts [binary_semaphores] back to the value it had before
    the take. *)
Theorem binary_take_release_roundtrip (fuel : nat) (sem_id bs : Z) (r : bool) (bs' : Z) :
  0 <= sem_id <= 31 -> is_uint32 bs ->
  binary_semaphore_take fuel sem_id bs = Some (r, bs') ->
  binary_semaphore_release sem_id bs' = (true, bs).
Proof.
  intros Hid Hbs Ht.
  apply binary_semaphore_take_inv in Ht as (Hb & -> & ->); [| done].
  rewrite binary_semaphore_release_valid by done.
  now rewrite binary_semaphore_clear_set.
Qed.

Lemma binary_take_release_roundtrip_witness :
  binary_semaphore_release 3 13 = (true, 5).
Proof.
  apply (binary_take_release_roundtrip 1 3 5 true 13); [lia | uint_range | reflexivity].
Defined.

(** X2. Releasing a slot that is not reserved changes nothing, so a second
    release in a row has no effect beyond the first. *)
Theorem binary_release_idempotent (sem_id bs : Z) :
  0 <= sem_id <= 31 -> is_uint32 bs ->
  (Z.testbit bs sem_id = false -> binary_semaphore_release sem_id bs = (true, bs)) /\
  binary_semaphore_release sem_id (snd (binary_semaphore_release sem_id bs)) =
    binary_semaphore_release sem_id bs.
Proof.
  intros Hid Hbs. split.
  - intros Hb. rewrite binary_semaphore_release_valid by done.
    now rewrite binary_semaphore_clear_free.
  - rewrite !binary_semaphore_release_valid by done. simpl.
    rewrite (binary_semaphore_clear_free sem_id (binary_semaphore_clear sem_id bs));
      auto with semaphore.
    now apply binary_semaphore_clear_bit.
Qed.

Lemma binary_release_idempotent_witness :
  binary_semaphore_release 3 5 = (true, 5) /\
  binary_semaphore_release 3 (snd (binary_semaphore_release 3 13)) =
    binary_semaphore_release 3 13.
Proof.
  destruct (binary_release_idempotent 3 5) as [Hfree _]; [lia | uint_range |].
  destruct (binary_release_idempotent 3 13) as [_ Htwice]; [lia | uint_range |].
  split; [apply Hfree; reflexivity | exact Htwice].
Defined.

(** X3. The binary semaphores are not re-entrant: once a take has
    returned, a thread that calls take again on the same identifier with
    no release in between spins for ever. *)
Theorem binary_take_not_reentrant (fuel fuel' : nat) (sem_id bs : Z) (r : bool) (bs' : Z) :
  0 <= sem_id <= 31 -> is_uint32 bs ->
  binary_semaphore_take fuel sem_id bs = Some (r, bs') ->
  binary_semaphore_take fuel' sem_id bs' = None.
Proof.
  intros Hid Hbs Ht.
  apply binary_semaphore_take_inv in Ht as (Hb & -> & ->); [| done].
  apply binary_semaphore_take_reserved; [done |].
  now apply binary_semaphore_set_bit.
Qed.

Lemma binary_take_not_reentrant_witness :
  binary_semaphore_take 1000 3 13 = None.
Proof.
  apply (binary_take_not_reentrant 1 1000 3 5 true 13); [lia | uint_range | reflexivity].
Defined.

Lemma binary_semaphore_take_is_Some fuel sem_id bs :
  0 <= sem_id <= 31 ->
  is_Some (binary_semaphore_take fuel sem_id bs) <->
  fuel <> O /\ Z.testbit bs sem_id = false.
Proof.
  intros Hid. destruct (Z.testbit bs sem_id) eqn:Hb.
  - rewrite binary_semaphore_take_reserved by done.
    split; [intros [? [=]] | intros [_ [=]]].
  - destruct fuel as [| fuel].
    + rewrite binary_semaphore_take_no_fuel by done.
      split; [intros [? [=]] | intros [[] _]; done].
    + rewrite binary_semaphore_take_free by done. split; eauto.
Qed.

(** X4. The slots are independent: between two different valid
    identifiers, a completed take or a release on the first does not
    change whether a take on the second returns. *)
Theorem binary_slots_independent (sem_id other bs : Z) :
  0 <= sem_id <= 31 -> 0 <= other <= 31 -> sem_id <> other -> is_uint32 bs ->
  (forall fuel r bs',
      binary_semaphore_take fuel sem_id bs = Some (r, bs') ->
      forall fuel',
        is_Some (binary_semaphore_take fuel' other bs') <->
        is_Some (binary_semaphore_take fuel' other bs)) /\
  (forall fuel',
      is_Some (binary_semaphore_take fuel' other
                 (snd (binary_semaphore_release sem_id bs))) <->
      is_Some (binary_semaphore_take fuel' other bs)).
Proof.
  intros Hid Hother Hne Hbs.
  assert ((other =? sem_id) = false) as Hneb by lia.
  split.
  - intros fuel r bs' Ht fuel'.
    apply binary_semaphore_take_inv in Ht as (_ & _ & ->); [| done].
    rewrite !binary_semaphore_take_is_Some by done.
    now rewrite binary_semaphore_set_bits, Hneb by first [done | lia].
  - intros fuel'. rewrite binary_semaphore_release_valid by done. simpl.
    rewrite !binary_semaphore_take_is_Some by done.
    now rewrite binary_semaphore_clear_bits, Hneb by first [done | lia].
Qed.

Lemma binary_slots_independent_witness :
  is_Some (binary_semaphore_take 1 1 (binary_semaphore_set 0 0)) <->
  is_Some (binary_semaphore_take 1 1 0).
Proof.
  destruct (binary_slots_independent 0 1 0) as [Htake _];
    [lia | lia | lia | uint_range |].
  apply (Htake 1%nat true (binary_semaphore_set 0 0)). reflexivity.
Defined.

(** X5. After any sequence of takes and releases made one after the other
    on the table, all of which returned, the table is still a 32-bit value
    and every slot is reserved exactly when the last call that named its
    identifier was a take (and as it was, when no call named it). Calls
    with identifiers above 31 count for nothing. *)
Theorem run_table_ops_held_after (fuel : nat) (ops : list table_op) (bs bs' : Z) :
  Forall (fun op => is_uint8 (table_op_id op)) ops -> is_uint32 bs ->
  run_table_ops fuel ops bs = Some bs' ->
  is_uint32 bs' /\
  forall k, 0 <= k <= 31 -> Z.testbit bs' k = held_after ops k (Z.testbit bs k).
Proof.
  intros Hops. revert bs.
  induction Hops as [| op ops Hop _ IH]; intros bs Hbs Hrun; simpl in Hrun.
  - injection Hrun as <-. done.
  - destruct op as [sem_id | sem_id]; simpl in Hop.
    + destruct (binary_semaphore_take fuel sem_id bs) as [[r bs1] |] eqn:Ht;
        [| discriminate].
      destruct (Z.le_gt_cases sem_id 31) as [Hle | Hgt].
      * assert (0 <= sem_id <= 31) as Hid by uint_range.
        apply binary_semaphore_take_inv in Ht as (_ & _ & ->); [| done].
        destruct (IH _ (binary_semaphore_set_range sem_id bs) Hrun) as [Hr Hbits].
        split; [done |]. intros k Hk. rewrite Hbits by done. simpl.
        rewrite binary_semaphore_set_bits by first [done | lia].
        now rewrite (Z.eqb_sym k sem_id).
      * unfold binary_semaphore_take in Ht. rewrite invalid_id_above in Ht by done.
        injection Ht as <- <-.
        destruct (IH _ Hbs Hrun) as [Hr Hbits].
        split; [done |]. intros k Hk. rewrite Hbits by done. simpl.
        now replace (sem_id =? k) with false by lia.
    + destruct (Z.le_gt_cases sem_id 31) as [Hle | Hgt].
      * assert (0 <= sem_id <= 31) as Hid by uint_range.
        rewrite binary_semaphore_release_valid in Hrun by done. simpl in Hrun.
        destruct (IH _ (binary_semaphore_clear_range sem_id bs) Hrun) as [Hr Hbits].
        split; [done |]. intros k Hk. rewrite Hbits by done. simpl.
        rewrite binary_semaphore_clear_bits by first [done | lia].
        now rewrite (Z.eqb_sym k sem_id).
      * unfold binary_semaphore_release in Hrun.
        rewrite invalid_id_above in Hrun by done. simpl in Hrun.
        destruct (IH _ Hbs Hrun) as [Hr Hbits].
        split; [done |]. intros k Hk. rewrite Hbits by done. simpl.
        now replace (sem_id =? k) with false by lia.
Qed.

Lemma run_table_ops_held_after_witness :
  Z.testbit 2 1 = held_after [TableTake 0; TableTake 1; TableRelease 0; TableTake 40] 1
                    (Z.testbit 0 1).
Proof.
  destruct (run_table_ops_held_after 1
              [TableTake 0; TableTake 1; TableRelease 0; TableTake 40] 0 2)
    as [_ Hbits].
  - repeat constructor; uint_range.
  - uint_range.
  - reflexivity.
  - apply Hbits. lia.
Defined.

(** ** The counting semaphore *)

Lemma counting_semaphore_release_after_take fuel self self' :
  0 <= num_reserved_resources self -> num_total_resources self <= uint16_max ->
  counting_semaphore_take fuel self = Some self' ->
  counting_semaphore_release self' = self.
Proof.
  intros Hres Htot Htake. destruct self as [reserved total]. simpl in *.
  apply counting_semaphore_take_inv in Htake as [Hlt ->]. simpl in *.
  unfold counting_semaphore_release, counting_semaphore_reserve. simpl.
  rewrite (to_uint16_small (reserved + 1)) by lia.
  replace (reserved + 1 >? 0) with true by lia.
  f_equal. rewrite to_uint16_small by lia. lia.
Qed.

Lemma counting_semaphore_take_after_release fuel self :
  0 < num_reserved_resources self <= num_total_resources self ->
  num_total_resources self <= uint16_max ->
  counting_semaphore_take (S fuel) (counting_semaphore_release self) = Some self.
Proof.
  intros Hpos Htot. destruct self as [reserved total]. simpl in *.
  unfold counting_semaphore_release. simpl.
  replace (reserved >? 0) with true by lia.
  rewrite counting_semaphore_take_free by (simpl; rewrite to_uint16_small; uint_range).
  unfold counting_semaphore_reserve. simpl.
  rewrite (to_uint16_small (reserved - 1)) by uint_range.
  do 2 f_equal. rewrite to_uint16_small by uint_range. lia.
Qed.

(** X6. On a semaphore whose counters are in range, a take that has
    returned followed by a release gives back the structure as it was; and
    when something is reserved, a release followed by a take does too, the
    take returning at its first test. *)
Theorem counting_take_release_roundtrip (self : counting_semaphore) :
  0 <= num_reserved_resources self -> num_total_resources self <= uint16_max ->
  (forall fuel self',
      counting_semaphore_take fuel self = Some self' ->
      counting_semaphore_release self' = self) /\
  (0 < num_reserved_resources self <= num_total_resources self ->
   forall fuel,
      counting_semaphore_take (S fuel) (counting_semaphore_release self) = Some self).
Proof.
  intros Hres Htot. split.
  - intros fuel self'. now apply counting_semaphore_release_after_take.
  - intros Hpos fuel. now apply counting_semaphore_take_after_release.
Qed.

Lemma counting_take_release_roundtrip_witness :
  counting_semaphore_release {| num_reserved_resources := 2; num_total_resources := 3 |} =
    {| num_reserved_resources := 1; num_total_resources := 3 |} /\
  counting_semaphore_take 1
    (counting_semaphore_release {| num_reserved_resources := 2; num_total_resources := 3 |}) =
    Some {| num_reserved_resources := 2; num_total_resources := 3 |}.
Proof.
  split.
  - destruct (counting_take_release_roundtrip
                {| num_reserved_resources := 1; num_total_resources := 3 |})
      as [Htr _]; [simpl; lia | uint_range |].
    apply (Htr 1%nat). reflexivity.
  - destruct (counting_take_release_roundtrip
                {| num_reserved_resources := 2; num_total_resources := 3 |})
      as [_ Hrt]; [simpl; lia | uint_range |].
    apply Hrt. simpl. lia.
Defined.

Lemma run_ops_takes fuel (n : nat) reserved total :
  0 <= reserved -> reserved + Z.of_nat n <= total -> total <= uint16_max ->
  run_ops (S fuel) (replicate n OpTake)
    {| num_reserved_resources := reserved; num_total_resources := total |} =
  Some {| num_reserved_resources := reserved + Z.of_nat n;
          num_total_resources := total |}.
Proof.
  revert reserved. induction n as [| n IH]; intros reserved Hres Hsum Htot.
  - simpl. do 2 f_equal. lia.
  - cbn [replicate run_ops].
    rewrite counting_semaphore_take_free by (simpl; lia).
    unfold counting_semaphore_reserve. simpl num_reserved_resources.
    simpl num_total_resources.
    rewrite to_uint16_small by lia.
    rewrite IH by lia. do 2 f_equal. lia.
Qed.

Lemma run_ops_app fuel ops1 ops2 self :
  run_ops fuel (ops1 ++ ops2) self =
  match run_ops fuel ops1 self with
  | Some self' => run_ops fuel ops2 self'
  | None => None
  end.
Proof.
  revert self. induction ops1 as [| op ops1 IH]; intros self; [done |].
  destruct op; simpl.
  - destruct (counting_semaphore_take fuel self); [apply IH | done].
  - apply IH.
Qed.

(** X7. On a new semaphore with [capacity] resources (1 to 65535), any
    [n <= capacity] takes made in a row all return, leaving [n] reserved;
    one take more than the capacity never returns. *)
Theorem counting_fill_to_capacity (capacity : Z) (n : nat) :
  0 < capacity <= uint16_max -> Z.of_nat n <= capacity ->
  (forall fuel,
      run_ops (S fuel) (replicate n OpTake) (counting_semaphore_init capacity) =
      Some {| num_reserved_resources := Z.of_nat n; num_total_resources := capacity |}) /\
  (forall fuel,
      run_ops fuel (replicate (S (Z.to_nat capacity)) OpTake)
        (counting_semaphore_init capacity) = None).
Proof.
  intros Hcap Hn. split.
  - intros fuel. unfold counting_semaphore_init.
    now rewrite run_ops_takes by lia.
  - intros fuel.
    replace (S (Z.to_nat capacity)) with (Z.to_nat capacity + 1)%nat by lia.
    rewrite replicate_add, run_ops_app.
    destruct fuel as [| fuel].
    + destruct (Z.to_nat capacity) as [| m] eqn:Hm; [lia | done].
    + unfold counting_semaphore_init. rewrite run_ops_takes by lia.
      simpl. rewrite counting_semaphore_take_full; [done |]. simpl. lia.
Qed.

Lemma counting_fill_to_capacity_witness :
  run_ops 1 [OpTake; OpTake] (counting_semaphore_init 2) =
    Some {| num_reserved_resources := 2; num_total_resources := 2 |} /\
  run_ops 1000 [OpTake; OpTake; OpTake] (counting_semaphore_init 2) = None.
Proof.
  destruct (counting_fill_to_capacity 2 2) as [Hfill Hover]; [uint_range | lia |].
  split; [apply (Hfill O) | apply (Hover 1000%nat)].
Defined.

(** X8. In every state reached by takes and releases on a semaphore
    created with [capacity] resources, a take returns exactly when
    [counting_semaphore_num_available] is not zero; a take that returns
    lowers the number of available resources by one, and a release raises
    it by one when something was reserved. *)
Theorem counting_take_iff_available (capacity : Z) (self : counting_semaphore) :
  0 < capacity <= uint16_max -> reachable capacity self ->
  (forall fuel,
      is_Some (counting_semaphore_take (S fuel) self) <->
      0 < counting_semaphore_num_available self) /\
  (forall fuel self',
      counting_semaphore_take fuel self = Some self' ->
      counting_semaphore_num_available self' =
        counting_semaphore_num_available self - 1) /\
  (0 < counting_semaphore_num_reserved self ->
   counting_semaphore_num_available (counting_semaphore_release self) =
     counting_semaphore_num_available self + 1).
Proof.
  intros Hcap Hreach.
  destruct (reachable_invariant capacity self Hcap Hreach) as [Htot Hres].
  assert (counting_semaphore_num_available self = capacity - num_reserved_resources self)
    as Havail.
  { unfold counting_semaphore_num_available. rewrite to_uint16_small; lia. }
  split; [| split].
  - intros fuel. rewrite Havail.
    destruct (Z.lt_ge_cases (num_reserved_resources self) capacity) as [Hlt | Hge].
    + rewrite counting_semaphore_take_free by lia. split; [lia | eauto].
    + rewrite counting_semaphore_take_full by lia. split; [intros [? [=]] | lia].
  - intros fuel self' Htake.
    pose proof (reachable_take capacity fuel self self' Hreach Htake) as Hreach'.
    destruct (reachable_invariant capacity self' Hcap Hreach') as [Htot' Hres'].
    apply counting_semaphore_take_inv in Htake as [Hlt ->].
    rewrite Havail. unfold counting_semaphore_num_available.
    rewrite to_uint16_small by lia.
    rewrite counting_semaphore_reserve_reserved by lia. simpl. lia.
  - unfold counting_semaphore_num_reserved. intros Hpos.
    rewrite Havail. unfold counting_semaphore_num_available.
    rewrite counting_semaphore_release_total,
      counting_semaphore_release_reserved by uint_range.
    rewrite to_uint16_small; lia.
Qed.

Lemma counting_take_iff_available_witness :
  is_Some (counting_semaphore_take 1 (counting_semaphore_init 2)) <->
  0 < counting_semaphore_num_available (counting_semaphore_init 2).
Proof.
  destruct (counting_take_iff_available 2 (counting_semaphore_init 2)) as [Hiff _].
  - uint_range.
  - apply reachable_new.
  - apply (Hiff O).
Defined.

(** X9. When more is reserved than there are resources, which the calls
    made one after the other never produce but two racing takes do, the
    [uint16_t] subtraction of [counting_semaphore_num_available] wraps
    around: it reports [65536 - (reserved - total)] available resources,
    although every take blocks. *)
Theorem counting_num_available_wraps (self : counting_semaphore) :
  is_uint16 (num_reserved_resources self) -> is_uint16 (num_total_resources self) ->
  num_total_resources self < num_reserved_resources self ->
  counting_semaphore_num_available self =
    65536 - (num_reserved_resources self - num_total_resources self) /\
  0 < counting_semaphore_num_available self /\
  forall fuel, counting_semaphore_take fuel self = None.
Proof.
  intros Hres Htot Hover.
  assert (counting_semaphore_num_available self =
          65536 - (num_reserved_resources self - num_total_resources self)) as Heq.
  { unfold counting_semaphore_num_available, to_uint16.
    symmetry. apply Z.mod_unique_pos with (q := -1); uint_range. }
  split; [done |]. split; [rewrite Heq; uint_range |].
  intros fuel. apply counting_semaphore_take_full. lia.
Qed.

Lemma counting_num_available_wraps_witness :
  counting_semaphore_num_available
    {| num_reserved_resources := 2; num_total_resources := 1 |} = 65536 - (2 - 1).
Proof.
  destruct (counting_num_available_wraps
              {| num_reserved_resources := 2; num_total_resources := 1 |})
    as [Heq _]; [uint_range | uint_range | simpl; lia |].
  exact Heq.
Defined.

(** ** Creation and deletion *)

(** X10. Creating a semaphore at an address that is not in use and deleting
    it again through the returned pointer leaves the heap as it was before
    the creation, and the pointer null. *)
Theorem counting_new_delete_roundtrip (self : positive) (num_resources : Z)
    (mem : gmap positive counting_semaphore) :
  mem !! self = None -> num_resources <> 0 ->
  counting_semaphore_delete
    (fst (counting_semaphore_new (Some self) num_resources mem))
    (snd (counting_semaphore_new (Some self) num_resources mem)) = (None, mem).
Proof.
  intros Hfresh Hne. unfold counting_semaphore_new.
  destruct (Z.eqb_spec num_resources 0) as [Heq | _]; [done |].
  simpl. now rewrite delete_insert_id.
Qed.

Lemma counting_new_delete_roundtrip_witness :
  counting_semaphore_delete
    (fst (counting_semaphore_new (Some 7%positive) 3 ∅))
    (snd (counting_semaphore_new (Some 7%positive) 3 ∅)) = (None, ∅).
Proof. apply counting_new_delete_roundtrip; [apply lookup_empty | lia]. Defined.


(** X12. Creating a semaphore leaves the semaphores that already exist as
    they are, if the allocator returns an address that is not in use: the
    two semaphores of the counting demonstration do not share state. *)
Theorem counting_new_keeps_others (allocated : handle) (num_resources : Z)
    (mem : gmap positive counting_semaphore) (other : positive) :
  (forall self, allocated = Some self -> mem !! self = None) ->
  is_Some (mem !! other) ->
  snd (counting_semaphore_new allocated num_resources mem) !! other = mem !! other /\
  fst (counting_semaphore_new allocated num_resources mem) <> Some other.
Proof.
  intros Hfresh Hother. split; [now apply counting_semaphore_new_frame |].
  unfold counting_semaphore_new.
  destruct (num_resources =? 0); [done |].
  destruct allocated as [p |]; [| done]. simpl. intros [= ->].
  rewrite (Hfresh other eq_refl) in Hother. now destruct Hother.
Qed.

Lemma counting_new_keeps_others_witness :
  snd (counting_semaphore_new (Some 2%positive) 1
         (snd (counting_semaphore_new (Some 1%positive) 1 ∅))) !! 1%positive =
    snd (counting_semaphore_new (Some 1%positive) 1 ∅) !! 1%positive.
Proof.
  apply counting_new_keeps_others.
  - intros self [= <-]. reflexivity.
  - eexists. reflexivity.
Defined.

(** ** The C++ class against the C structure *)

Lemma counting_semaphore_take_total fuel self self' :
  counting_semaphore_take fuel self = Some self' ->
  num_total_resources self' = num_total_resources self.
Proof.
  unfold counting_semaphore_take.
  destruct (counting_semaphore_wait fuel self); [| discriminate].
  now intros [= <-].
Qed.

(** X13. An object of the C++ class [counting_semaphore<num_resources>] and
    a C structure with [num_resources] resources in total, started with the
    same number reserved, go through the same calls in the same way: the
    sequence blocks on one exactly when it blocks on the other, and
    otherwise the same number is reserved in the end, with the same number
    reported available. *)
Theorem cpp_class_agrees_with_c_struct (fuel : nat) (num_resources : Z)
    (ops : list sem_op) (reserved : Z) :
  run_ops_cpp fuel num_resources ops reserved =
    num_reserved_resources <$>
      run_ops fuel ops
        {| num_reserved_resources := reserved; num_total_resources := num_resources |} /\
  (forall self',
      run_ops fuel ops
        {| num_reserved_resources := reserved; num_total_resources := num_resources |}
        = Some self' ->
      num_total_resources self' = num_resources /\
      Cpp.num_available_resources num_resources (num_reserved_resources self') =
        counting_semaphore_num_available self').
Proof.
  revert reserved. induction ops as [| op ops IH]; intros reserved.
  - split; [done |]. intros self' [= <-]. done.
  - destruct op; simpl.
    + rewrite cpp_take_agrees.
      destruct (counting_semaphore_take fuel _) as [self1 |] eqn:Htake; simpl; [| done].
      pose proof (counting_semaphore_take_total _ _ _ Htake) as Htot. simpl in Htot.
      destruct self1 as [reserved1 total1]. simpl in *. subst total1. apply IH.
    + rewrite cpp_release_agrees.
      pose proof (counting_semaphore_release_total
        {| num_reserved_resources := reserved; num_total_resources := num_resources |})
        as Htot.
      destruct (counting_semaphore_release _) as [reserved1 total1].
      simpl in *. subst total1. apply IH.
Qed.

(** ** The demonstration threads *)

(** X14. For every 16-bit print interval the adjusted interval is again a
    16-bit value and at least 1 ms. Added to the 10 ms slept under the
    console semaphore it gives the requested interval when that is above
    10 ms; for an interval of 10 ms or less it is 10 ms, so that an
    iteration sleeps 20 ms. The products handed to [usleep] stay below
    [2^31], so the [int] multiplication of [delay_ms] does not overflow. *)
Theorem adjusted_print_interval_spec (print_interval_ms : Z) :
  is_uint16 print_interval_ms ->
  is_uint16 (adjusted_print_interval_ms print_interval_ms) /\
  1 <= adjusted_print_interval_ms print_interval_ms /\
  (10 < print_interval_ms ->
   10 + adjusted_print_interval_ms print_interval_ms = print_interval_ms) /\
  (print_interval_ms <= 10 -> adjusted_print_interval_ms print_interval_ms = 10) /\
  0 <= delay_ms (adjusted_print_interval_ms print_interval_ms) < 2 ^ 31.
Proof.
  intros Hint. unfold adjusted_print_interval_ms, delay_ms.
  destruct (Z.gtb_spec print_interval_ms 10) as [Hgt | Hle];
    rewrite to_uint16_small by uint_range; uint_range.
Qed.

Lemma adjusted_print_interval_spec_witness :
  10 + adjusted_print_interval_ms 1000 = 1000 /\
  adjusted_print_interval_ms 3 = 10.
Proof.
  destruct (adjusted_print_interval_spec 1000) as (_ & _ & Hlong & _); [uint_range |].
  destruct (adjusted_print_interval_spec 3) as (_ & _ & _ & Hshort & _); [uint_range |].
  split; [apply Hlong; lia | apply Hshort; lia].
Defined.

Lemma to_uint16_succ x : to_uint16 (to_uint16 x + 1) = to_uint16 (x + 1).
Proof. unfold to_uint16. apply Z.add_mod_idemp_l. lia. Qed.

(** The counter after [k] iterations, [k >= 1]: it has wrapped around as
    often as [65536] fits. *)
Lemma iteration_effect_iter (k : nat) id print_interval_ms w :
  num_prints (Nat.iter (S k) (iteration_effect id print_interval_ms) w) =
    to_uint16 (num_prints w + Z.of_nat (S k)) /\
  slept_us (Nat.iter k (iteration_effect id print_interval_ms) w) =
    slept_us w +
    Z.of_nat k * (delay_ms 10 + delay_ms (adjusted_print_interval_ms print_interval_ms)).
Proof.
  induction k as [| k [IHn IHs]].
  - split; simpl; [f_equal; lia | lia].
  - split.
    + change (Nat.iter (S (S k)) (iteration_effect id print_interval_ms) w)
        with (iteration_effect id print_interval_ms
                (Nat.iter (S k) (iteration_effect id print_interval_ms) w)).
      unfold iteration_effect at 1. cbn [num_prints]. rewrite IHn.
      rewrite to_uint16_succ. f_equal. lia.
    + change (Nat.iter (S k) (iteration_effect id print_interval_ms) w)
        with (iteration_effect id print_interval_ms
                (Nat.iter k (iteration_effect id print_interval_ms) w)).
      unfold iteration_effect at 1. cbn [slept_us]. rewrite IHs. lia.
Qed.

Lemma counting_run_thread_iteration_free fuel id print_interval_ms st :
  0 <= num_reserved_resources (sem_console st) < num_total_resources (sem_console st) ->
  num_total_resources (sem_console st) <= uint16_max ->
  0 <= num_reserved_resources (sem_shared_mem st) < num_total_resources (sem_shared_mem st) ->
  num_total_resources (sem_shared_mem st) <= uint16_max ->
  counting_run_thread_iteration (S fuel) id print_interval_ms st =
    Some {| sem_console := sem_console st;
            sem_shared_mem := sem_shared_mem st;
            counting_world := iteration_effect id print_interval_ms (counting_world st) |}.
Proof.
  intros [Hc0 Hc] Hc1 [Hs0 Hs] Hs1.
  unfold counting_run_thread_iteration.
  pose proof (counting_semaphore_take_free fuel _ Hc) as Htc.
  pose proof (counting_semaphore_take_free fuel _ Hs) as Hts.
  rewrite Hts, Htc.
  now rewrite (counting_semaphore_release_after_take _ _ _ Hc0 Hc1 Htc),
    (counting_semaphore_release_after_take _ _ _ Hs0 Hs1 Hts).
Qed.

Lemma counting_run_thread_iteration_full fuel id print_interval_ms st :
  num_total_resources (sem_console st) <= num_reserved_resources (sem_console st) \/
  num_total_resources (sem_shared_mem st) <= num_reserved_resources (sem_shared_mem st) ->
  counting_run_thread_iteration fuel id print_interval_ms st = None.
Proof.
  intros Hfull. unfold counting_run_thread_iteration.
  destruct (counting_semaphore_take fuel (sem_shared_mem st)) as [s1 |] eqn:Hts; [| done].
  destruct (counting_semaphore_take fuel (sem_console st)) as [c1 |] eqn:Htc; [| done].
  apply counting_semaphore_take_inv in Hts as [Hs _].
  apply counting_semaphore_take_inv in Htc as [Hc _]. lia.
Qed.

(** X15. One iteration of [run_thread] of main_counting_sem.c, run by a
    thread on its own: when both semaphores have a resource left it
    completes at the first test of each take, leaves both semaphores as
    they were, has added one to [num_prints] modulo 65536, has appended
    the four lines with the new count to the terminal and has slept for
    10 ms plus the adjusted interval. When either semaphore is full it
    never completes. *)
Theorem counting_run_thread_iteration_spec (id print_interval_ms : Z) (st : counting_demo) :
  0 <= num_reserved_resources (sem_console st) ->
  num_total_resources (sem_console st) <= uint16_max ->
  0 <= num_reserved_resources (sem_shared_mem st) ->
  num_total_resources (sem_shared_mem st) <= uint16_max ->
  (num_reserved_resources (sem_console st) < num_total_resources (sem_console st) ->
   num_reserved_resources (sem_shared_mem st) < num_total_resources (sem_shared_mem st) ->
   forall fuel,
     counting_run_thread_iteration (S fuel) id print_interval_ms st =
     Some {| sem_console := sem_console st;
             sem_shared_mem := sem_shared_mem st;
             counting_world :=
               {| num_prints := to_uint16 (num_prints (counting_world st) + 1);
                  terminal :=
                    terminal (counting_world st) +:+
                    print_block id (to_uint16 (num_prints (counting_world st) + 1));
                  slept_us :=
                    slept_us (counting_world st) + 10000 +
                    1000 * adjusted_print_interval_ms print_interval_ms |} |}) /\
  (num_total_resources (sem_console st) <= num_reserved_resources (sem_console st) \/
   num_total_resources (sem_shared_mem st) <= num_reserved_resources (sem_shared_mem st) ->
   forall fuel, counting_run_thread_iteration fuel id print_interval_ms st = None).
Proof.
  intros Hc0 Hc1 Hs0 Hs1. split.
  - intros Hc Hs fuel.
    rewrite counting_run_thread_iteration_free by lia.
    unfold iteration_effect, delay_ms. do 3 f_equal. lia.
  - intros Hfull fuel. now apply counting_run_thread_iteration_full.
Qed.

Lemma counting_run_thread_iteration_spec_witness :
  counting_run_thread_iteration 1 1 1000
    {| sem_console := counting_semaphore_init 1;
       sem_shared_mem := counting_semaphore_init 1;
       counting_world := {| num_prints := 65535; terminal := EmptyString; slept_us := 0 |} |} =
  Some {| sem_console := counting_semaphore_init 1;
          sem_shared_mem := counting_semaphore_init 1;
          counting_world :=
            {| num_prints := to_uint16 (65535 + 1);
               terminal := EmptyString +:+ print_block 1 (to_uint16 (65535 + 1));
               slept_us := 0 + 10000 + 1000 * adjusted_print_interval_ms 1000 |} |}.
Proof.
  destruct (counting_run_thread_iteration_spec 1 1000
              {| sem_console := counting_semaphore_init 1;
                 sem_shared_mem := counting_semaphore_init 1;
                 counting_world :=
                   {| num_prints := 65535; terminal := EmptyString; slept_us := 0 |} |})
    as [Hrun _]; [simpl; lia | uint_range | simpl; lia | uint_range |].
  apply (Hrun ltac:(simpl; lia) ltac:(simpl; lia) O).
Defined.

Lemma counting_run_thread_free fuel (k : nat) id print_interval_ms st :
  0 <= num_reserved_resources (sem_console st) < num_total_resources (sem_console st) ->
  num_total_resources (sem_console st) <= uint16_max ->
  0 <= num_reserved_resources (sem_shared_mem st) < num_total_resources (sem_shared_mem st) ->
  num_total_resources (sem_shared_mem st) <= uint16_max ->
  counting_run_thread (S fuel) k id print_interval_ms st =
    Some {| sem_console := sem_console st;
            sem_shared_mem := sem_shared_mem st;
            counting_world :=
              Nat.iter k (iteration_effect id print_interval_ms) (counting_world st) |}.
Proof.
  revert st. induction k as [| k IH]; intros st Hc Hc1 Hs Hs1.
  - simpl. now destruct st.
  - cbn [counting_run_thread].
    rewrite counting_run_thread_iteration_free by done.
    rewrite IH by done. cbn [sem_console sem_shared_mem counting_world].
    now rewrite <- Nat.iter_succ_r.
Qed.

(** X16. A thread that runs the loop of [run_thread] of
    main_counting_sem.c on its own, both semaphores having a resource left,
    completes any number [k >= 1] of iterations; the semaphores are then as
    they were, [num_prints] has advanced by [k] modulo 65536 (so that it is
    back at its value after 65536 iterations), and the thread has slept
    [k] times 10 ms plus the adjusted interval. *)
Theorem counting_run_thread_counts (fuel k : nat) (id print_interval_ms : Z)
    (st : counting_demo) :
  0 <= num_reserved_resources (sem_console st) < num_total_resources (sem_console st) ->
  num_total_resources (sem_console st) <= uint16_max ->
  0 <= num_reserved_resources (sem_shared_mem st) < num_total_resources (sem_shared_mem st) ->
  num_total_resources (sem_shared_mem st) <= uint16_max ->
  exists st',
    counting_run_thread (S fuel) (S k) id print_interval_ms st = Some st' /\
    sem_console st' = sem_console st /\
    sem_shared_mem st' = sem_shared_mem st /\
    num_prints (counting_world st') =
      to_uint16 (num_prints (counting_world st) + Z.of_nat (S k)) /\
    slept_us (counting_world st') =
      slept_us (counting_world st) +
      Z.of_nat (S k) * (10000 + 1000 * adjusted_print_interval_ms print_interval_ms).
Proof.
  intros Hc Hc1 Hs Hs1. eexists. split.
  - now apply counting_run_thread_free.
  - cbn [sem_console sem_shared_mem counting_world].
    destruct (iteration_effect_iter k id print_interval_ms (counting_world st))
      as [Hn _].
    destruct (iteration_effect_iter (S k) id print_interval_ms (counting_world st))
      as [_ Hsl].
    rewrite Hn, Hsl. unfold delay_ms. repeat split. lia.
Qed.

Lemma counting_run_thread_counts_witness :
  exists st',
    counting_run_thread 1 3 1 1000
      {| sem_console := counting_semaphore_init 1;
         sem_shared_mem := counting_semaphore_init 1;
         counting_world := {| num_prints := 65534; terminal := EmptyString; slept_us := 0 |} |}
      = Some st' /\
    num_prints (counting_world st') = to_uint16 (65534 + Z.of_nat 3).
Proof.
  destruct (counting_run_thread_counts 0 2 1 1000
              {| sem_console := counting_semaphore_init 1;
                 sem_shared_mem := counting_semaphore_init 1;
                 counting_world :=
                   {| num_prints := 65534; terminal := EmptyString; slept_us := 0 |} |})
    as (st' & Hrun & _ & _ & Hn & _); [simpl; lia | uint_range | simpl; lia | uint_range |].
  exists st'. split; [exact Hrun | exact Hn].
Defined.

Lemma BINARY_SEM_ID_valid :
  0 <= BINARY_SEM_ID_CONSOLE <= 31 /\ 0 <= BINARY_SEM_ID_SHARED_MEM <= 31 /\
  BINARY_SEM_ID_CONSOLE <> BINARY_SEM_ID_SHARED_MEM.
Proof. vm_compute. repeat split; congruence. Qed.

Lemma binary_run_thread_iteration_free fuel id print_interval_ms st :
  is_uint32 (binary_semaphores st) ->
  Z.testbit (binary_semaphores st) BINARY_SEM_ID_CONSOLE = false ->
  Z.testbit (binary_semaphores st) BINARY_SEM_ID_SHARED_MEM = false ->
  binary_run_thread_iteration (S fuel) id print_interval_ms st =
    Some {| binary_semaphores := binary_semaphores st;
            binary_world := iteration_effect id print_interval_ms (binary_world st) |}.
Proof.
  intros Hbs Hc Hs. destruct BINARY_SEM_ID_valid as (Hcon & Hshm & Hne).
  unfold binary_run_thread_iteration.
  rewrite binary_semaphore_take_free by done.
  rewrite binary_semaphore_release_valid by done. cbn [snd].
  rewrite binary_semaphore_clear_set by done.
  rewrite binary_semaphore_take_free by done.
  rewrite binary_semaphore_release_valid by done. cbn [snd].
  now rewrite binary_semaphore_clear_set by done.
Qed.

Lemma binary_run_thread_iteration_held fuel id print_interval_ms st :
  is_uint32 (binary_semaphores st) ->
  Z.testbit (binary_semaphores st) BINARY_SEM_ID_CONSOLE = true \/
  Z.testbit (binary_semaphores st) BINARY_SEM_ID_SHARED_MEM = true ->
  binary_run_thread_iteration fuel id print_interval_ms st = None.
Proof.
  intros Hbs Hheld. destruct BINARY_SEM_ID_valid as (Hcon & Hshm & Hne).
  unfold binary_run_thread_iteration.
  destruct (Z.testbit (binary_semaphores st) BINARY_SEM_ID_SHARED_MEM) eqn:Hs.
  - now rewrite binary_semaphore_take_reserved by done.
  - destruct Hheld as [Hc | [=]].
    destruct fuel as [| fuel]; [now rewrite binary_semaphore_take_no_fuel by done |].
    rewrite binary_semaphore_take_free by done.
    rewrite binary_semaphore_release_valid by done. cbn [snd].
    rewrite binary_semaphore_clear_set by done.
    now rewrite binary_semaphore_take_reserved by done.
Qed.

(** X17. One iteration of [run_thread] of main_binary_sem.c, run by a
    thread on its own: when slots 0 (console) and 1 (shared memory) are
    both free it completes at the first test of each take and leaves the
    whole table as it was, with the same effect on [num_prints], the
    terminal and the time slept as the counting version. When either of
    the two slots is reserved it never completes. *)
Theorem binary_run_thread_iteration_spec (id print_interval_ms : Z) (st : binary_demo) :
  is_uint32 (binary_semaphores st) ->
  (Z.testbit (binary_semaphores st) BINARY_SEM_ID_CONSOLE = false ->
   Z.testbit (binary_semaphores st) BINARY_SEM_ID_SHARED_MEM = false ->
   forall fuel,
     binary_run_thread_iteration (S fuel) id print_interval_ms st =
     Some {| binary_semaphores := binary_semaphores st;
             binary_world := iteration_effect id print_interval_ms (binary_world st) |}) /\
  (Z.testbit (binary_semaphores st) BINARY_SEM_ID_CONSOLE = true \/
   Z.testbit (binary_semaphores st) BINARY_SEM_ID_SHARED_MEM = true ->
   forall fuel, binary_run_thread_iteration fuel id print_interval_ms st = None).
Proof.
  intros Hbs. split.
  - intros Hc Hs fuel. now apply binary_run_thread_iteration_free.
  - intros Hheld fuel. now apply binary_run_thread_iteration_held.
Qed.

Lemma binary_run_thread_iteration_spec_witness :
  binary_run_thread_iteration 1 2 1000
    {| binary_semaphores := 12;
       binary_world := {| num_prints := 0; terminal := EmptyString; slept_us := 0 |} |} =
  Some {| binary_semaphores := 12;
          binary_world :=
            iteration_effect 2 1000
              {| num_prints := 0; terminal := EmptyString; slept_us := 0 |} |}.
Proof.
  destruct (binary_run_thread_iteration_spec 2 1000
              {| binary_semaphores := 12;
                 binary_world :=
                   {| num_prints := 0; terminal := EmptyString; slept_us := 0 |} |})
    as [Hrun _]; [uint_range |].
  apply (Hrun eq_refl eq_refl O).
Defined.

Lemma slot_sim_cases sem_id bs self :
  slot_sim sem_id bs self ->
  (Z.testbit bs sem_id = false /\
   num_reserved_resources self = 0 /\ num_total_resources self = 1) \/
  (Z.testbit bs sem_id = true /\
   num_reserved_resources self = 1 /\ num_total_resources self = 1).
Proof. intros [Htot Hres]. destruct (Z.testbit bs sem_id); simpl in Hres; auto. Qed.

(** X18. The two C demonstrations do the same: started with the same
    counter, terminal and time slept, and with each counting semaphore of
    capacity one in the state of the slot that stands for it, an
    iteration of the binary [run_thread] completes exactly when an
    iteration of the counting [run_thread] does, and they end with the
    same counter, terminal and time slept and with the semaphores again in
    the same state. *)
Theorem counting_demo_matches_binary_demo (fuel : nat) (id print_interval_ms : Z)
    (b : binary_demo) (c : counting_demo) :
  is_uint32 (binary_semaphores b) ->
  slot_sim BINARY_SEM_ID_CONSOLE (binary_semaphores b) (sem_console c) ->
  slot_sim BINARY_SEM_ID_SHARED_MEM (binary_semaphores b) (sem_shared_mem c) ->
  binary_world b = counting_world c ->
  match binary_run_thread_iteration fuel id print_interval_ms b,
        counting_run_thread_iteration fuel id print_interval_ms c with
  | Some b', Some c' =>
      binary_world b' = counting_world c' /\
      is_uint32 (binary_semaphores b') /\
      slot_sim BINARY_SEM_ID_CONSOLE (binary_semaphores b') (sem_console c') /\
      slot_sim BINARY_SEM_ID_SHARED_MEM (binary_semaphores b') (sem_shared_mem c')
  | None, None => True
  | _, _ => False
  end.
Proof.
  intros Hbs Hcon Hshm Hw.
  destruct (slot_sim_cases _ _ _ Hcon) as [(Hcb & Hcr & Hct) | (Hcb & Hcr & Hct)];
  destruct (slot_sim_cases _ _ _ Hshm) as [(Hsb & Hsr & Hst) | (Hsb & Hsr & Hst)].
  - destruct fuel as [| fuel].
    + unfold binary_run_thread_iteration, counting_run_thread_iteration.
      destruct BINARY_SEM_ID_valid as (_ & Hid & _).
      now rewrite binary_semaphore_take_no_fuel by done.
    + rewrite binary_run_thread_iteration_free by done.
      rewrite counting_run_thread_iteration_free by uint_range.
      cbn [binary_world counting_world binary_semaphores sem_console sem_shared_mem].
      now rewrite Hw.
  - rewrite binary_run_thread_iteration_held by auto.
    now rewrite counting_run_thread_iteration_full by lia.
  - rewrite binary_run_thread_iteration_held by auto.
    now rewrite counting_run_thread_iteration_full by lia.
  - rewrite binary_run_thread_iteration_held by auto.
    now rewrite counting_run_thread_iteration_full by lia.
Qed.

Lemma counting_demo_matches_binary_demo_witness :
  match binary_run_thread_iteration 1 1 1000
          {| binary_semaphores := 0;
             binary_world := {| num_prints := 0; terminal := EmptyString; slept_us := 0 |} |},
        counting_run_thread_iteration 1 1 1000
          {| sem_console := counting_semaphore_init 1;
             sem_shared_mem := counting_semaphore_init 1;
             counting_world := {| num_prints := 0; terminal := EmptyString; slept_us := 0 |} |}
  with
  | Some b', Some c' => binary_world b' = counting_world c'
  | None, None => True
  | _, _ => False
  end.
Proof.
  pose proof (counting_demo_matches_binary_demo 1 1 1000
    {| binary_semaphores := 0;
       binary_world := {| num_prints := 0; terminal := EmptyString; slept_us := 0 |} |}
    {| sem_console := counting_semaphore_init 1;
       sem_shared_mem := counting_semaphore_init 1;
       counting_world := {| num_prints := 0; terminal := EmptyString; slept_us := 0 |} |}
    ltac:(uint_range) ltac:(split; reflexivity) ltac:(split; reflexivity) eq_refl) as H.
  destruct (binary_run_thread_iteration _ _ _ _) as [b' |];
    destruct (counting_run_thread_iteration _ _ _ _) as [c' |]; try exact H.
  exact (proj1 H).
Defined.

(** X19. An iteration of [RunThread] of main_counting_sem.cpp does what an
    iteration of [run_thread] of main_counting_sem.c does on two
    structures with one resource each: it completes in the same cases,
    and with the same counters, the same [num_prints], the same text on the
    terminal and the same time slept. *)
Theorem RunThread_iteration_agrees (fuel : nat) (thread_id print_interval_ms : Z)
    (st : cpp_demo) :
  RunThread_iteration fuel thread_id print_interval_ms st =
  (fun c => {| cpp_sem_console := num_reserved_resources (sem_console c);
               cpp_sem_shared_mem := num_reserved_resources (sem_shared_mem c);
               cpp_world := counting_world c |}) <$>
    counting_run_thread_iteration fuel thread_id print_interval_ms
      {| sem_console :=
           {| num_reserved_resources := cpp_sem_console st; num_total_resources := 1 |};
         sem_shared_mem :=
           {| num_reserved_resources := cpp_sem_shared_mem st; num_total_resources := 1 |};
         counting_world := cpp_world st |}.
Proof.
  unfold RunThread_iteration, counting_run_thread_iteration.
  cbn [sem_console sem_shared_mem counting_world].
  rewrite !cpp_take_agrees.
  destruct (counting_semaphore_take fuel
              {| num_reserved_resources := cpp_sem_shared_mem st;
                 num_total_resources := 1 |}) as [s1 |] eqn:Hs; [| done].
  apply counting_semaphore_take_total in Hs.
  destruct (counting_semaphore_take fuel
              {| num_reserved_resources := cpp_sem_console st;
                 num_total_resources := 1 |}) as [c1 |] eqn:Hc; [| done].
  apply counting_semaphore_take_total in Hc.
  destruct s1 as [sr st1], c1 as [cr ct1]. simpl in Hs, Hc. subst st1 ct1.
  simpl. now rewrite !cpp_release_agrees.
Qed.

(** ** Racing takes *)

(** X20. Whatever the capacity (up to 65534), when a single resource is
    left and two threads call [counting_semaphore_take], the schedule in
    which both test the loop condition before either increments the
    counter lets both calls return: the reserved count ends one above the
    capacity. *)
Theorem counting_take_race_last_resource (self : counting_semaphore) :
  0 <= num_reserved_resources self ->
  num_reserved_resources self + 1 = num_total_resources self ->
  num_total_resources self < uint16_max ->
  let sys := run_schedule [0; 1; 0; 1]%nat
               {| shared := self; threads := [AtWait; AtWait] |} in
  threads sys = [Holding; Holding] /\
  num_total_resources (shared sys) = num_total_resources self /\
  num_reserved_resources (shared sys) = num_total_resources self + 1.
Proof.
  intros Hres Hlast Hcap sys. subst sys.
  assert (counting_semaphore_full self = false) as Hfree.
  { unfold counting_semaphore_full. lia. }
  assert (thread_step 0 {| shared := self; threads := [AtWait; AtWait] |} =
          {| shared := self; threads := [AtReserve; AtWait] |}) as Hstep1.
  { unfold thread_step. cbn. now rewrite Hfree. }
  assert (thread_step 1 {| shared := self; threads := [AtReserve; AtWait] |} =
          {| shared := self; threads := [AtReserve; AtReserve] |}) as Hstep2.
  { unfold thread_step. cbn. now rewrite Hfree. }
  change (run_schedule [0; 1; 0; 1]%nat {| shared := self; threads := [AtWait; AtWait] |})
    with (thread_step 1 (thread_step 0 (thread_step 1
            (thread_step 0 {| shared := self; threads := [AtWait; AtWait] |})))).
  rewrite Hstep1, Hstep2. unfold thread_step. cbn.
  repeat split.
  rewrite (to_uint16_small (num_reserved_resources self + 1)) by uint_range.
  rewrite to_uint16_small by uint_range. lia.
Qed.

Lemma counting_take_race_last_resource_witness :
  num_reserved_resources
    (shared (run_schedule [0; 1; 0; 1]%nat
       {| shared := {| num_reserved_resources := 4; num_total_resources := 5 |};
          threads := [AtWait; AtWait] |})) = 5 + 1.
Proof.
  destruct (counting_take_race_last_resource
              {| num_reserved_resources := 4; num_total_resources := 5 |})
    as (_ & _ & Hres); [simpl; lia | reflexivity | uint_range |].
  exact Hres.
Defined.
